(** * ThermoMoDuino: the chiller thermostat control loop

    A shallow embedding of [ThermoMoDuino/ThermoMoDuino.ino]: the sensor
    filter of [read_temp], the second counter at the head of the duty loop,
    the five state handlers [do_state_1] .. [do_state_5], the fatal handler
    [errmesg], the start-up part of [loop] and one pass of its duty loop.

    Conventions of the embedding
    - The sketch's [float] variables hold rationals ([Q]); infinities and
      NaN of the 32-bit float type are outside the model.  Where the last
      place of a float result decides what the sketch does, the operation
      is rounded to IEEE 754 binary32, to nearest with ties to even
      ([b32], [fadd], [fsub], [fmul], [fdiv]): in the filter of
      [read_temp] and in the two thresholds of [do_state_4].  The
      threshold [targetTemp+hysteresis] of [do_state_1] and [do_state_5]
      is kept as the exact 16.8: the float sum is the float just below
      16.8, so both tests agree on every float ([water_exit_threshold]).
      The safeguard bounds are floats themselves; the case-target update
      is taken without rounding.
    - [unsigned long] is 32 bits wide on the target: values are [Z] and every
      arithmetic result is reduced by [ulong].
    - The Steinhart-Hart conversion of [read_temp] needs [log]; the converted
      Celsius value of each thermistor is an input of the model.
    - [digitalWrite] appends to a write log, newest first; the level of a pin
      is the newest entry for it.
    - The seven-segment display, the tone generator, the serial log and the
      delays carry no control state and are left out. *)

From Stdlib Require Import ZArith QArith Qminmax Qabs Qpower Qround.
From Stdlib Require Import Lqa Lia List Bool.
From Stdlib Require Import Floats.SpecFloat.
Import ListNotations.

Local Open Scope Z_scope.

(** ** Constants of the sketch *)

Definition SolenoidPin : Z := 7.
Definition CompressorPin : Z := 8.
Definition FanPin : Z := 10.
Definition PumpPin : Z := 9.

Definition hysteresis : Q := 0.8.
Definition targetTemp : Q := 16.0.

Definition CASE_TEMP_MARGIN : Q := 2.0.
Definition CASE_TEMP_ROOF : Q := 30.

Definition HOLD_TIME : Z := 600.
Definition COOLDOWN_TIME : Z := 60.
Definition SECOND : Z := 1000.

Definition T_MAX : Q := 50.0.
Definition T_MIN : Q := 3.0.
Definition T2_MAX : Q := 55.0.
Definition T2_MIN : Q := 3.0.

(** ** Machine arithmetic *)

(** Reduction of an [unsigned long] result. *)
Definition ulong (z : Z) : Z := z mod 2 ^ 32.

(** Rounding to binary32.  A positive [a] is scaled by the power of two
    that leaves 24 mantissa bits (one unit in the last place is
    [2^(floor_log2 a - 23)], and [2^-149] in the subnormal range), rounded
    to the nearest integer with ties to even, and scaled back.  Results
    beyond the largest float are outside the model. *)
Definition pow2 (e : Z) : Q := (2 ^ e)%Q.

Definition floor_log2 (a : Q) : Z :=
  let k := Z.log2 (Qnum a) - Z.log2 (QDen a) in
  if Qle_bool (pow2 k) a then k else k - 1.

Definition round_half_even (y : Q) : Z :=
  let f := Qfloor y in
  match (y - inject_Z f ?= 1 # 2)%Q with
  | Lt => f
  | Gt => f + 1
  | Eq => if Z.even f then f else f + 1
  end.

Definition b32_pos (a : Q) : Q :=
  let e := Z.max (floor_log2 a - 23) (-149) in
  (inject_Z (round_half_even (a / pow2 e)) * pow2 e)%Q.

Definition b32 (x : Q) : Q :=
  match Qnum x with
  | Z0 => 0%Q
  | Zpos _ => b32_pos x
  | Zneg _ => (- b32_pos (- x))%Q
  end.

(** The float operations [+ - * /]: the exact result, rounded. *)
Definition fadd (a b : Q) : Q := b32 (a + b).
Definition fsub (a b : Q) : Q := b32 (a - b).
Definition fmul (a b : Q) : Q := b32 (a * b).
Definition fdiv (a b : Q) : Q := b32 (a / b).

(** [a > b] and [a < b] on floats, as booleans. *)
Definition Qgtb (a b : Q) : bool := negb (Qle_bool a b).
Definition Qltb (a b : Q) : bool := negb (Qle_bool b a).

(** [a != 0] on floats. *)
Definition Qnonzero (a : Q) : bool := negb (Qeq_bool a 0).

(** ** Global variables *)

Inductive level : Type := HIGH | LOW.

Record globals : Type := mkGlobals {
  T : Q;
  T2 : Q;
  Tlast : Q;
  T2last : Q;
  targetCaseTemp : Q;
  thisTick : Z;
  lastTick : Z;
  nextSecondTick : Z;
  seconds : Z;
  state : Z;
  state_last : Z;
  state_new : Z;
  st2_timer : Z;
  st3_start : Z;
  st4_timer : Z;
  st5_timer : Z;
  port : list (Z * level)
}.

(** The variables as the C start-up code leaves them. *)
Definition power_on : globals :=
  mkGlobals 0 0 0 0 22.0 0 0 0 0 0 0 0 0 0 0 0 [].

Definition set_T (v : Q) (g : globals) : globals :=
  mkGlobals v (T2 g) (Tlast g) (T2last g) (targetCaseTemp g)
    (thisTick g) (lastTick g) (nextSecondTick g) (seconds g)
    (state g) (state_last g) (state_new g)
    (st2_timer g) (st3_start g) (st4_timer g) (st5_timer g) (port g).

Definition set_T2 (v : Q) (g : globals) : globals :=
  mkGlobals (T g) v (Tlast g) (T2last g) (targetCaseTemp g)
    (thisTick g) (lastTick g) (nextSecondTick g) (seconds g)
    (state g) (state_last g) (state_new g)
    (st2_timer g) (st3_start g) (st4_timer g) (st5_timer g) (port g).

Definition set_Tlast (v : Q) (g : globals) : globals :=
  mkGlobals (T g) (T2 g) v (T2last g) (targetCaseTemp g)
    (thisTick g) (lastTick g) (nextSecondTick g) (seconds g)
    (state g) (state_last g) (state_new g)
    (st2_timer g) (st3_start g) (st4_timer g) (st5_timer g) (port g).

Definition set_T2last (v : Q) (g : globals) : globals :=
  mkGlobals (T g) (T2 g) (Tlast g) v (targetCaseTemp g)
    (thisTick g) (lastTick g) (nextSecondTick g) (seconds g)
    (state g) (state_last g) (state_new g)
    (st2_timer g) (st3_start g) (st4_timer g) (st5_timer g) (port g).

Definition set_targetCaseTemp (v : Q) (g : globals) : globals :=
  mkGlobals (T g) (T2 g) (Tlast g) (T2last g) v
    (thisTick g) (lastTick g) (nextSecondTick g) (seconds g)
    (state g) (state_last g) (state_new g)
    (st2_timer g) (st3_start g) (st4_timer g) (st5_timer g) (port g).

Definition set_thisTick (v : Z) (g : globals) : globals :=
  mkGlobals (T g) (T2 g) (Tlast g) (T2last g) (targetCaseTemp g)
    v (lastTick g) (nextSecondTick g) (seconds g)
    (state g) (state_last g) (state_new g)
    (st2_timer g) (st3_start g) (st4_timer g) (st5_timer g) (port g).

Definition set_lastTick (v : Z) (g : globals) : globals :=
  mkGlobals (T g) (T2 g) (Tlast g) (T2last g) (targetCaseTemp g)
    (thisTick g) v (nextSecondTick g) (seconds g)
    (state g) (state_last g) (state_new g)
    (st2_timer g) (st3_start g) (st4_timer g) (st5_timer g) (port g).

Definition set_nextSecondTick (v : Z) (g : globals) : globals :=
  mkGlobals (T g) (T2 g) (Tlast g) (T2last g) (targetCaseTemp g)
    (thisTick g) (lastTick g) v (seconds g)
    (state g) (state_last g) (state_new g)
    (st2_timer g) (st3_start g) (st4_timer g) (st5_timer g) (port g).

Definition set_seconds (v : Z) (g : globals) : globals :=
  mkGlobals (T g) (T2 g) (Tlast g) (T2last g) (targetCaseTemp g)
    (thisTick g) (lastTick g) (nextSecondTick g) v
    (state g) (state_last g) (state_new g)
    (st2_timer g) (st3_start g) (st4_timer g) (st5_timer g) (port g).

Definition set_state (v : Z) (g : globals) : globals :=
  mkGlobals (T g) (T2 g) (Tlast g) (T2last g) (targetCaseTemp g)
    (thisTick g) (lastTick g) (nextSecondTick g) (seconds g)
    v (state_last g) (state_new g)
    (st2_timer g) (st3_start g) (st4_timer g) (st5_timer g) (port g).

Definition set_state_last (v : Z) (g : globals) : globals :=
  mkGlobals (T g) (T2 g) (Tlast g) (T2last g) (targetCaseTemp g)
    (thisTick g) (lastTick g) (nextSecondTick g) (seconds g)
    (state g) v (state_new g)
    (st2_timer g) (st3_start g) (st4_timer g) (st5_timer g) (port g).

Definition set_state_new (v : Z) (g : globals) : globals :=
  mkGlobals (T g) (T2 g) (Tlast g) (T2last g) (targetCaseTemp g)
    (thisTick g) (lastTick g) (nextSecondTick g) (seconds g)
    (state g) (state_last g) v
    (st2_timer g) (st3_start g) (st4_timer g) (st5_timer g) (port g).

Definition set_st2_timer (v : Z) (g : globals) : globals :=
  mkGlobals (T g) (T2 g) (Tlast g) (T2last g) (targetCaseTemp g)
    (thisTick g) (lastTick g) (nextSecondTick g) (seconds g)
    (state g) (state_last g) (state_new g)
    v (st3_start g) (st4_timer g) (st5_timer g) (port g).

Definition set_st3_start (v : Z) (g : globals) : globals :=
  mkGlobals (T g) (T2 g) (Tlast g) (T2last g) (targetCaseTemp g)
    (thisTick g) (lastTick g) (nextSecondTick g) (seconds g)
    (state g) (state_last g) (state_new g)
    (st2_timer g) v (st4_timer g) (st5_timer g) (port g).

Definition set_st4_timer (v : Z) (g : globals) : globals :=
  mkGlobals (T g) (T2 g) (Tlast g) (T2last g) (targetCaseTemp g)
    (thisTick g) (lastTick g) (nextSecondTick g) (seconds g)
    (state g) (state_last g) (state_new g)
    (st2_timer g) (st3_start g) v (st5_timer g) (port g).

Definition set_st5_timer (v : Z) (g : globals) : globals :=
  mkGlobals (T g) (T2 g) (Tlast g) (T2last g) (targetCaseTemp g)
    (thisTick g) (lastTick g) (nextSecondTick g) (seconds g)
    (state g) (state_last g) (state_new g)
    (st2_timer g) (st3_start g) (st4_timer g) v (port g).

Definition set_port (v : list (Z * level)) (g : globals) : globals :=
  mkGlobals (T g) (T2 g) (Tlast g) (T2last g) (targetCaseTemp g)
    (thisTick g) (lastTick g) (nextSecondTick g) (seconds g)
    (state g) (state_last g) (state_new g)
    (st2_timer g) (st3_start g) (st4_timer g) (st5_timer g) v.

(** ** Pins *)

Definition digitalWrite (pin : Z) (v : level) (g : globals) : globals :=
  set_port ((pin, v) :: port g) g.

(** Level of [pin] after the writes of [log]; [None] before its first write. *)
Fixpoint pin_level (pin : Z) (log : list (Z * level)) : option level :=
  match log with
  | [] => None
  | (p, v) :: older => if p =? pin then Some v else pin_level pin older
  end.

(** The pins written by a log. *)
Definition pins_written (log : list (Z * level)) : list Z := map fst log.

(** [setup()]: the four relay pins are driven HIGH (relays released). *)
Definition setup (g : globals) : globals :=
  let g := digitalWrite CompressorPin HIGH g in
  let g := digitalWrite SolenoidPin HIGH g in
  let g := digitalWrite FanPin HIGH g in
  digitalWrite PumpPin HIGH g.

(** The relays are active low: a non-zero argument drives the pin LOW. *)
Definition compressor (on : Z) (g : globals) : globals :=
  if on =? 0 then digitalWrite CompressorPin HIGH g
  else digitalWrite CompressorPin LOW g.

Definition solenoid (on : Z) (g : globals) : globals :=
  if on =? 0 then digitalWrite SolenoidPin HIGH g
  else digitalWrite SolenoidPin LOW g.

Definition fan (on : Z) (g : globals) : globals :=
  if on =? 0 then digitalWrite FanPin HIGH g
  else digitalWrite FanPin LOW g.

(** An actuator is off when its pin is HIGH. *)
Definition actuators_off (g : globals) : Prop :=
  pin_level CompressorPin (port g) = Some HIGH /\
  pin_level SolenoidPin (port g) = Some HIGH /\
  pin_level FanPin (port g) = Some HIGH.

(** ** Sensor filter *)

(** [read_temp()], given the two converted thermistor readings.  The
    filter [((Tlast*199.0)+T)/200.0] is three float operations. *)
Definition read_temp (c1 c2 : Q) (g : globals) : globals :=
  let g := set_T c1 g in
  let g := if Qnonzero (Tlast g)
           then set_T (fdiv (fadd (fmul (Tlast g) 199.0) (T g)) 200.0) g
           else g in
  let g := set_Tlast (T g) g in
  let g := set_T2 c2 g in
  let g := if Qnonzero (T2last g)
           then set_T2 (fdiv (fadd (fmul (T2last g) 99.0) (T2 g)) 100.0) g
           else g in
  set_T2last (T2 g) g.

(** ** Second counter *)

(** The head of the duty loop: [seconds] and [nextSecondTick] advance when
    [thisTick] has passed [nextSecondTick], unless the roll-over guard
    [nextSecondTick < 1001 && thisTick > 1001] holds.  The boolean is the
    local [tick]. *)
Definition second_counter (g : globals) : globals * bool :=
  if negb ((nextSecondTick g <? 1001) && (thisTick g >? 1001)) then
    if thisTick g >? nextSecondTick g then
      let g := set_seconds (ulong (seconds g + 1)) g in
      let g := set_nextSecondTick (ulong (nextSecondTick g + SECOND)) g in
      (g, true)
    else (g, false)
  else (g, false).

(** The second counter alone, driven by a list of [millis()] readings;
    returns the final variables and the [tick] of every pass. *)
Fixpoint count_seconds (stamps : list Z) (g : globals) : globals * list bool :=
  match stamps with
  | [] => (g, [])
  | now :: rest =>
      let (g1, tick) := second_counter (set_thisTick now g) in
      let (g2, ticks) := count_seconds rest g1 in
      (g2, tick :: ticks)
  end.

(** ** State handlers *)

(** The case-target adaptation inside [do_state_5]. *)
Definition adapt_case_target (g : globals) : globals :=
  let g := set_targetCaseTemp
             ((targetCaseTemp g * 3.0 + T2 g + CASE_TEMP_MARGIN) / 4.0)%Q g in
  if Qgtb (targetCaseTemp g) CASE_TEMP_ROOF
  then set_targetCaseTemp CASE_TEMP_ROOF g else g.

Definition do_state_1 (g : globals) : globals * Z :=
  let g := fan 0 g in
  let g := compressor 0 g in
  let g := solenoid 0 g in
  let g := if Qgtb (T2 g) (targetCaseTemp g) then set_state_new 5 g else g in
  let g := if Qgtb (T g) (targetTemp + hysteresis)
           then set_state_new 2 g else g in
  (g, 0).

Definition do_state_2 (g : globals) : globals * Z :=
  let g := fan 0 g in
  let g := compressor 1 g in
  let g := solenoid 1 g in
  let g := if negb (state_last g =? 2)
           then set_st2_timer (ulong (seconds g + 3)) g else g in
  let g := if seconds g =? st2_timer g then set_state_new 3 g else g in
  (g, 0).

Definition do_state_3 (g : globals) : globals * Z :=
  let g := fan 1 g in
  let g := compressor 1 g in
  let g := solenoid 0 g in
  let g := if negb (state_last g =? 3)
           then set_st3_start (seconds g) g else g in
  let g := if Qle_bool (T g) targetTemp
              && (ulong (seconds g - st3_start g) >? 5)
           then set_state_new 4 g else g in
  (g, 0).

Definition do_state_4 (g : globals) : globals * Z :=
  let g := fan 1 g in
  let g := compressor 1 g in
  let g := solenoid 1 g in
  let g := if negb (state_last g =? 4)
           then set_st4_timer (ulong (seconds g + HOLD_TIME)) g else g in
  let g := if seconds g =? st4_timer g then set_state_new 5 g else g in
  let g := if Qgtb (T g) (fadd targetTemp (b32 0.2))
              && (ulong (st4_timer g - seconds g) <? HOLD_TIME - 5)
           then set_state_new 3 g else g in
  let g := if Qltb (T g) (fsub targetTemp (b32 hysteresis))
           then set_state_new 5 g else g in
  (g, 0).

Definition do_state_5 (g : globals) : globals * Z :=
  let g := fan 1 g in
  let g := compressor 0 g in
  let g := solenoid 0 g in
  let g := if negb (state_last g =? 5)
           then set_st5_timer (ulong (seconds g + COOLDOWN_TIME)) g else g in
  let g := if seconds g =? st5_timer g
           then adapt_case_target (set_state_new 1 g) else g in
  let g := if Qgtb (T g) (targetTemp + hysteresis)
           then set_state_new 2 g else g in
  (g, 0).

(** ** Fatal halt *)

(** A pass either leaves the sketch running or ends in [errmesg], whose
    endless alarm loop writes no pin and changes no variable. *)
Inductive outcome : Type :=
  | Running (g : globals)
  | Halted (err : Z) (g : globals).

Definition errmesg (err : Z) (g : globals) : outcome :=
  let g := fan 0 g in
  let g := compressor 0 g in
  let g := solenoid 0 g in
  Halted err g.

Definition bind (o : outcome) (k : globals -> outcome) : outcome :=
  match o with
  | Running g => k g
  | Halted err g => Halted err g
  end.

Notation "'do' g <- o ; k" := (bind o (fun g => k))
  (at level 10, g name, o at level 100, k at level 200).

Definition vars (o : outcome) : globals :=
  match o with Running g | Halted _ g => g end.

(** [if (T<T_MIN || T>T_MAX) errmesg(1); if (T2<T2_MIN || T2>T2_MAX)
    errmesg(2);] *)
Definition safeguards (g : globals) : outcome :=
  do g <- (if Qltb (T g) T_MIN || Qgtb (T g) T_MAX
           then errmesg 1 g else Running g);
  if Qltb (T2 g) T2_MIN || Qgtb (T2 g) T2_MAX
  then errmesg 2 g else Running g.

(** ** The duty loop *)

(** A handler that returns non-zero ends in [errmesg(11)]. *)
Definition checked (r : globals * Z) : outcome :=
  let (g, ret) := r in
  if ret =? 0 then Running g else errmesg 11 g.

(** The [if .. else if ..] chain over [state]. *)
Definition dispatch (g : globals) : outcome :=
  if state g =? 1 then checked (do_state_1 g)
  else if state g =? 2 then checked (do_state_2 g)
  else if state g =? 3 then checked (do_state_3 g)
  else if state g =? 4 then checked (do_state_4 g)
  else if state g =? 5 then checked (do_state_5 g)
  else errmesg 99 g.

(** What one pass of the duty loop reads from the hardware. *)
Record sample : Type := mkSample {
  millis : Z;
  celsius1 : Q;
  celsius2 : Q
}.

(** The only part of the logging and display block that touches control
    state: [if (state == 1 && seconds % 10 == 0) seconds=0;] under [tick]. *)
Definition housekeeping (tick : bool) (g : globals) : globals :=
  if tick && ((state g =? 1) && (seconds g mod 10 =? 0))
  then set_seconds 0 g else g.

(** One pass of [while (true)] in [loop()]. *)
Definition duty_pass (i : sample) (g : globals) : outcome :=
  let g := set_thisTick (millis i) g in
  let (g, tick) := second_counter g in
  let g := read_temp (celsius1 i) (celsius2 i) g in
  let g := set_state_new 0 g in
  do g <- dispatch g;
  let g := set_state_last (state g) g in
  let g := if state_new g =? 0 then g else set_state (state_new g) g in
  do g <- safeguards g;
  Running (housekeeping tick g).

(** The duty loop over the samples of successive passes; once halted,
    nothing more is executed. *)
Fixpoint duty_loop (input : list sample) (o : outcome) : outcome :=
  match input with
  | [] => o
  | i :: rest => duty_loop rest (bind o (duty_pass i))
  end.

(** ** Start-up *)

(** [for (i = 0; i < 200; i++) read_temp();] over the readings [warm i]. *)
Definition settle (warm : nat -> Q * Q) (g : globals) : globals :=
  fold_left (fun g i => read_temp (fst (warm i)) (snd (warm i)) g)
            (seq 0 200) g.

(** The part of [loop()] before the duty loop, after [setup()].  [m1] and
    [m2] are the two [millis()] readings. *)
Definition startup (warm : nat -> Q * Q) (m1 m2 : Z) : outcome :=
  let g := setup power_on in
  let g := settle warm g in
  do g <- safeguards g;
  let g := solenoid 1 g in
  let g := solenoid 0 g in
  let g := fan 1 g in
  let g := fan 0 g in
  let g := set_state 1 g in
  let g := set_lastTick m1 g in
  let g := set_nextSecondTick (ulong (m2 + SECOND)) g in
  Running g.

(** A whole run: start-up, then the duty loop over [input]. *)
Definition run (warm : nat -> Q * Q) (m1 m2 : Z) (input : list sample)
  : outcome :=
  duty_loop input (startup warm m1 m2).

(** * Vocabulary of the statements *)

(** ** Blocks of a pass and of start-up *)

(** The variables the state handlers see in a pass: after the second
    counter, [read_temp()] and [state_new = 0]. *)
Definition sensed (i : sample) (g : globals) : globals :=
  set_state_new 0
    (read_temp (celsius1 i) (celsius2 i)
       (fst (second_counter (set_thisTick (millis i) g)))).

(** The local [tick] of the pass. *)
Definition ticked (i : sample) (g : globals) : bool :=
  snd (second_counter (set_thisTick (millis i) g)).

(** [state_last = state; if (state_new) state = state_new;] *)
Definition change_state (g : globals) : globals :=
  let g := set_state_last (state g) g in
  if state_new g =? 0 then g else set_state (state_new g) g.

(** The part of start-up after the safeguards. *)
Definition hand_over (m1 m2 : Z) (g : globals) : globals :=
  let g := solenoid 1 g in
  let g := solenoid 0 g in
  let g := fan 1 g in
  let g := fan 0 g in
  let g := set_state 1 g in
  let g := set_lastTick m1 g in
  set_nextSecondTick (ulong (m2 + SECOND)) g.

(** The five handlers, and the one the [if .. else if ..] chain of the duty
    loop selects for a state. *)
Definition handlers : list (globals -> globals * Z) :=
  [do_state_1; do_state_2; do_state_3; do_state_4; do_state_5].

Definition handler_of (s : Z) : option (globals -> globals * Z) :=
  if s =? 1 then Some do_state_1
  else if s =? 2 then Some do_state_2
  else if s =? 3 then Some do_state_3
  else if s =? 4 then Some do_state_4
  else if s =? 5 then Some do_state_5
  else None.

(** Running in a state of 1..5, or halted by a safeguard. *)
Definition sound (o : outcome) : Prop :=
  match o with
  | Running g => 1 <= state g <= 5
  | Halted err _ => err = 1 \/ err = 2
  end.

(** ** Timers and temperatures *)

(** The hold deadline [do_state_4] works with: armed on entry, kept
    afterwards. *)
Definition hold_deadline (g : globals) : Z :=
  if state_last g =? 4 then st4_timer g else ulong (seconds g + HOLD_TIME).

(** The cooldown deadline [do_state_5] works with: armed on entry, kept
    afterwards. *)
Definition cooldown_deadline (g : globals) : Z :=
  if state_last g =? 5 then st5_timer g
  else ulong (seconds g + COOLDOWN_TIME).

(** The case-target adaptation as a function of the old target and the
    case temperature. *)
Definition adapted (tc t2 : Q) : Q :=
  let v := ((tc * 3.0 + t2 + CASE_TEMP_MARGIN) / 4.0)%Q in
  if Qgtb v CASE_TEMP_ROOF then CASE_TEMP_ROOF else v.

(** [x] lies strictly between [a] and [b], in either order. *)
Definition strictly_between (a b x : Q) : Prop :=
  (a < x /\ x < b)%Q \/ (b < x /\ x < a)%Q.

(** A filtered temperature outside the bounds of the safeguards. *)
Definition out_of_bounds (g : globals) : Prop :=
  (T g < T_MIN \/ T_MAX < T g \/ T2 g < T2_MIN \/ T2_MAX < T2 g)%Q.

(** ** Rounding

    [float] and [double] are both 32 bits wide on the AVR target. *)

(** Half a unit in the last place of a float, relative to its magnitude,
    and in the subnormal range. *)
Definition b32_u : Q := pow2 (-24).
Definition b32_eta : Q := pow2 (-150).

(** Magnitudes for which no operation of the filter overflows: 200 times
    the value is below the largest float. *)
Definition float_range (x : Q) : Prop := (Qabs x <= pow2 120)%Q.

(** The rounding error the three operations of the filter can add up to,
    for a previous value [p] and a reading [c]. *)
Definition slack (p c : Q) : Q :=
  (pow2 (-22) * Qmax (Qabs p) (Qabs c) + pow2 (-148))%Q.

(** The same rounding by the Standard Library's specification of IEEE 754
    arithmetic ([SpecFloat]), to check [b32] against: the quotient of
    numerator and denominator, both below [2^24] for the values checked, as
    a binary32 division. *)
Definition SF_of_Z (z : Z) : spec_float :=
  match z with
  | Z0 => S754_zero false
  | Zpos p => S754_finite false p 0
  | Zneg p => S754_finite true p 0
  end.

Definition SF2Q (f : spec_float) : Q :=
  match f with
  | S754_finite s m e =>
      ((if s then -1 else 1) * inject_Z (Zpos m) * pow2 e)%Q
  | _ => 0%Q
  end.

Definition b32_sf (x : Q) : spec_float :=
  SFdiv 24 128 (SF_of_Z (Qnum x)) (SF_of_Z (QDen x)).

(** The water filter expression [((Tlast*199.0)+T)/200.0] over
    [SpecFloat]. *)
Definition b32_of_Z (z : Z) : spec_float := binary_normalize 24 128 z 0 false.

Definition ema199_b32 (prev raw : spec_float) : spec_float :=
  SFdiv 24 128
    (SFadd 24 128 (SFmul 24 128 prev (b32_of_Z 199)) raw)
    (b32_of_Z 200).

(** [k] readings of [millis()], each one millisecond past the boundary then
    due. *)
Fixpoint on_time (boundary : Z) (k : nat) : list Z :=
  match k with
  | O => []
  | S k' => (boundary + 1) :: on_time (boundary + SECOND) k'
  end.

(** ** Pin writes *)

(** The three relay pins the handlers and [errmesg] drive. *)
Definition driven (pin : Z) : Prop :=
  pin = SolenoidPin \/ pin = CompressorPin \/ pin = FanPin.

(** The writes to the pump pin in a log. *)
Definition pump_writes (log : list (Z * level)) : list (Z * level) :=
  filter (fun w => fst w =? PumpPin) log.

(** The writes a pass adds to the log. *)
Definition pass_writes (i : sample) (g : globals) : list (Z * level) :=
  let log := port (vars (duty_pass i g)) in
  firstn (length log - length (port g)) log.

(** A burst of writes to the three relay pins, each of them written. *)
Definition relay_burst (w : list (Z * level)) : Prop :=
  Forall driven (pins_written w) /\
  In SolenoidPin (pins_written w) /\
  In CompressorPin (pins_written w) /\
  In FanPin (pins_written w).

(** ** Concrete variables and readings

    The field order is [T T2 Tlast T2last targetCaseTemp thisTick lastTick
    nextSecondTick seconds state state_last state_new st2_timer st3_start
    st4_timer st5_timer port]. *)

(** Idle variables with the filtered temperatures at [t1] and [t2]. *)
Definition idle_at (t1 t2 : Q) : globals :=
  mkGlobals t1 t2 t1 t2 22.0 20000 15000 20500 4 1 1 0 0 0 0 0
            [(SolenoidPin, HIGH); (CompressorPin, HIGH); (FanPin, HIGH)].

(** Idle variables with water at 20.0, case at 25.0 and case target 22.0:
    both exits of [do_state_1] fire. *)
Definition idle_both : globals := idle_at 20.0 25.0.

(** Cooling variables, compressor and fan on. *)
Definition cooling_at (t1 t2 : Q) : globals :=
  mkGlobals t1 t2 t1 t2 22.0 20000 15000 20500 14 3 3 0 7 7 0 0
            [(SolenoidPin, HIGH); (CompressorPin, LOW); (FanPin, LOW)].

(** Holding variables on the pass where the hold timer elapses
    ([seconds = st4_timer = 700]) with the water at 17.0, above the warm
    threshold. *)
Definition holding_timer_up : globals :=
  mkGlobals 17.0 20.0 17.0 20.0 22.0 800000 15000 800500 700 4 4 0
            91 94 700 0
            [(SolenoidPin, LOW); (CompressorPin, LOW); (FanPin, LOW)].






(** Idle variables 4294950 regular seconds after a start-up that read
    [millis() = 16276]: the next boundary is 20 ms before the roll-over of
    [millis()]. *)
Definition clock_before_wrap : globals :=
  mkGlobals 20.0 20.0 20.0 20.0 22.0 4294967200 16276 4294967276 4
            1 1 0 0 0 0 0
            [(SolenoidPin, HIGH); (CompressorPin, HIGH); (FanPin, HIGH)].

(** 101 passes 50 ms apart, from 46 ms before the roll-over to 4954 ms
    after it: five seconds of elapsed time. *)
Definition stamps_across_wrap : list Z :=
  map (fun k => ulong (4294967250 + 50 * Z.of_nat k)) (seq 0 101).

(** Idle variables with the next boundary 2 ms before the roll-over. *)
Definition clock_at_wrap : globals :=
  mkGlobals 20.0 20.0 20.0 20.0 22.0 4294967245 16294 4294967294 4
            1 1 0 0 0 0 0
            [(SolenoidPin, HIGH); (CompressorPin, HIGH); (FanPin, HIGH)].

(** 101 passes 54 ms apart, from 1 ms before the roll-over to 5399 ms after
    it: the first one passes the boundary, which moves to 998; the readings
    then go from 971 to 1025. *)
Definition stamps_past_guard : list Z :=
  map (fun k => ulong (4294967295 + 54 * Z.of_nat k)) (seq 0 101).

(** * Properties *)

Arguments ulong : simpl never.
Arguments Qgtb : simpl never.
Arguments Qltb : simpl never.
Arguments Qnonzero : simpl never.

(** ** Comparisons *)

Lemma Qgtb_true (a b : Q) : Qgtb a b = true <-> (b < a)%Q.
Proof.
  unfold Qgtb. rewrite negb_true_iff. split; intro H.
  - apply Qnot_le_lt. intro L. apply Qle_bool_iff in L. congruence.
  - destruct (Qle_bool a b) eqn:E; [|reflexivity].
    apply Qle_bool_iff in E. exfalso. exact (Qlt_not_le _ _ H E).
Qed.

Lemma Qgtb_false (a b : Q) : Qgtb a b = false <-> (a <= b)%Q.
Proof.
  unfold Qgtb. rewrite negb_false_iff. apply Qle_bool_iff.
Qed.

Lemma Qltb_true (a b : Q) : Qltb a b = true <-> (a < b)%Q.
Proof. exact (Qgtb_true b a). Qed.

Lemma Qltb_false (a b : Q) : Qltb a b = false <-> (b <= a)%Q.
Proof. exact (Qgtb_false b a). Qed.

Lemma Qnonzero_true (a : Q) : Qnonzero a = true <-> ~ (a == 0)%Q.
Proof.
  unfold Qnonzero. rewrite negb_true_iff. split; intro H.
  - intro E. apply Qeq_bool_iff in E. congruence.
  - destruct (Qeq_bool a 0) eqn:E; [|reflexivity].
    apply Qeq_bool_iff in E. contradiction.
Qed.

Lemma Qnonzero_false (a : Q) : Qnonzero a = false <-> (a == 0)%Q.
Proof.
  unfold Qnonzero. rewrite negb_false_iff. apply Qeq_bool_iff.
Qed.

(** Case split on an [if] of the goal whose test contains no other [if]. *)
Ltac split_if :=
  match goal with
  | |- context [if ?c then _ else _] =>
      lazymatch c with
      | context [if _ then _ else _] => fail
      | _ => destruct c eqn:?
      end
  end.

(** ** Rounding to binary32 *)

Arguments b32 : simpl never.
Arguments fadd : simpl never.
Arguments fsub : simpl never.
Arguments fmul : simpl never.
Arguments fdiv : simpl never.

Section Rounding.

Lemma pow2_pos (e : Z) : (0 < pow2 e)%Q.
Proof. apply Qpower_0_lt. reflexivity. Qed.

Lemma pow2_plus (a b : Z) : (pow2 (a + b) == pow2 a * pow2 b)%Q.
Proof. apply Qpower_plus. discriminate. Qed.

Lemma pow2_Z (n : Z) : 0 <= n -> (pow2 n == inject_Z (2 ^ n))%Q.
Proof. intro H. unfold pow2. now rewrite Zpower_Qpower. Qed.

(** The nearest integer is within one half. *)
Lemma round_half_even_near (y : Q) :
  (- (1 # 2) <= inject_Z (round_half_even y) - y <= 1 # 2)%Q.
Proof.
  unfold round_half_even.
  pose proof (Qfloor_le y) as L. pose proof (Qlt_floor y) as U.
  rewrite inject_Z_plus in U. change (inject_Z 1) with 1%Q in U.
  destruct (Qcompare_spec (y - inject_Z (Qfloor y)) (1 # 2)) as [E | E | E].
  - destruct (Z.even (Qfloor y)); rewrite ?inject_Z_plus;
      change (inject_Z 1) with 1%Q; lra.
  - lra.
  - rewrite inject_Z_plus. change (inject_Z 1) with 1%Q. lra.
Qed.

(** A positive rational lies between the powers of two around the
    difference of the binary logarithms of numerator and denominator. *)
Lemma log2_quotient (a : Q) :
  (0 < a)%Q ->
  (pow2 (Z.log2 (Qnum a) - Z.log2 (QDen a) - 1) <= a)%Q /\
  (a < pow2 (Z.log2 (Qnum a) - Z.log2 (QDen a) + 1))%Q.
Proof.
  intro Ha. destruct a as [n d]. cbn [Qnum Qden].
  assert (Hn : 0 < n) by (unfold Qlt in Ha; cbn in Ha; lia).
  pose proof (Z.log2_spec n Hn) as [Ln Un].
  pose proof (Z.log2_spec (Zpos d) (Pos2Z.is_pos d)) as [Ld Ud].
  pose proof (Z.log2_nonneg n) as Nn.
  pose proof (Z.log2_nonneg (Zpos d)) as Nd.
  set (ln := Z.log2 n) in *. set (ld := Z.log2 (Zpos d)) in *.
  assert (P2 : (0 < inject_Z (Zpos d))%Q) by reflexivity.
  assert (C : (inject_Z n / inject_Z (Zpos d) * inject_Z (Zpos d)
               == inject_Z n)%Q) by (field; discriminate).
  assert (D : (0 <= inject_Z n / inject_Z (Zpos d))%Q).
  { apply Qle_shift_div_l; [exact P2 |]. rewrite Qmult_0_l.
    unfold Qle. cbn. lia. }
  split.
  - replace (ln - ld - 1) with (ln - (ld + 1)) by lia.
    unfold pow2. rewrite Qpower_minus by discriminate.
    fold (pow2 ln). fold (pow2 (ld + 1)).
    rewrite (pow2_Z ln Nn), (pow2_Z (ld + 1)) by lia.
    rewrite (Qmake_Qdiv n d).
    assert (P1 : (0 < inject_Z (2 ^ (ld + 1)))%Q).
    { rewrite <- pow2_Z by lia. apply pow2_pos. }
    assert (A : (inject_Z (2 ^ ln) <= inject_Z n)%Q)
      by (rewrite <- Zle_Qle; exact Ln).
    assert (B : (inject_Z (Zpos d) <= inject_Z (2 ^ (ld + 1)))%Q).
    { rewrite <- Zle_Qle. unfold Z.succ in Ud. lia. }
    apply Qle_shift_div_r; [exact P1 |]. nra.
  - replace (ln - ld + 1) with (ln + 1 - ld) by lia.
    unfold pow2. rewrite Qpower_minus by discriminate.
    fold (pow2 (ln + 1)). fold (pow2 ld).
    rewrite (pow2_Z (ln + 1)), (pow2_Z ld Nd) by lia.
    rewrite (Qmake_Qdiv n d).
    assert (P1 : (0 < inject_Z (2 ^ ld))%Q).
    { rewrite <- pow2_Z by lia. apply pow2_pos. }
    assert (A : (inject_Z n < inject_Z (2 ^ (ln + 1)))%Q).
    { rewrite <- Zlt_Qlt. unfold Z.succ in Un. lia. }
    assert (B : (inject_Z (2 ^ ld) <= inject_Z (Zpos d))%Q)
      by (rewrite <- Zle_Qle; exact Ld).
    apply Qlt_shift_div_l; [exact P1 |]. nra.
Qed.

(** [floor_log2] is the binary exponent of a positive rational. *)
Lemma floor_log2_spec (a : Q) :
  (0 < a)%Q ->
  (pow2 (floor_log2 a) <= a)%Q /\ (a < pow2 (floor_log2 a + 1))%Q.
Proof.
  intro Ha. unfold floor_log2.
  destruct (log2_quotient a Ha) as [L U].
  destruct (Qle_bool (pow2 (Z.log2 (Qnum a) - Z.log2 (QDen a))) a) eqn:E.
  - split; [now apply Qle_bool_iff | exact U].
  - split; [exact L |].
    replace (Z.log2 (Qnum a) - Z.log2 (QDen a) - 1 + 1)
      with (Z.log2 (Qnum a) - Z.log2 (QDen a)) by lia.
    apply Qnot_le_lt. intro H. apply Qle_bool_iff in H. congruence.
Qed.

(** Rounding moves a positive value by at most half a unit in the last
    place. *)
Lemma b32_pos_error (a : Q) :
  (0 < a)%Q ->
  (- (b32_u * a + b32_eta) <= b32_pos a - a <= b32_u * a + b32_eta)%Q.
Proof.
  intro Ha. unfold b32_pos.
  set (e := Z.max (floor_log2 a - 23) (-149)).
  pose proof (pow2_pos e) as Hs.
  pose proof (round_half_even_near (a / pow2 e)) as Hr.
  set (m := inject_Z (round_half_even (a / pow2 e))) in *.
  assert (Hq : (a / pow2 e * pow2 e == a)%Q) by (field; lra).
  assert (Hh : (pow2 e * (1 # 2) <= b32_u * a + b32_eta)%Q).
  { pose proof (pow2_pos (-150)) as P150.
    pose proof (pow2_pos (-24)) as P24.
    unfold b32_u, b32_eta.
    destruct (Z.max_spec (floor_log2 a - 23) (-149)) as [[_ E] | [_ E]];
      fold e in E; rewrite E.
    - change (pow2 (-149) * (1 # 2))%Q with (pow2 (-150)).
      assert (0 <= pow2 (-24) * a)%Q by nra. lra.
    - replace (floor_log2 a - 23) with (floor_log2 a + -24 + 1) by lia.
      rewrite pow2_plus, pow2_plus.
      change (pow2 1) with 2%Q.
      pose proof (proj1 (floor_log2_spec a Ha)) as L.
      pose proof (pow2_pos (floor_log2 a)) as PF.
      nra. }
  split; nra.
Qed.

Lemma b32_error (x B : Q) :
  (- B <= x <= B)%Q ->
  (- (b32_u * B + b32_eta) <= b32 x - x <= b32_u * B + b32_eta)%Q.
Proof.
  intros [L U]. unfold b32.
  assert (Pu : (0 < b32_u)%Q) by apply pow2_pos.
  assert (Pe : (0 < b32_eta)%Q) by apply pow2_pos.
  destruct x as [n d]. cbn [Qnum].
  destruct n as [| p | p].
  - assert (0 # d == 0)%Q by reflexivity. nra.
  - assert (Hp : (0 < Z.pos p # d)%Q) by reflexivity.
    pose proof (b32_pos_error _ Hp). nra.
  - assert (Hp : (0 < - (Z.neg p # d))%Q) by reflexivity.
    pose proof (b32_pos_error _ Hp). nra.
Qed.

(** [b32] and [SpecFloat]'s binary32 division give the same float on
    decimal constants of the sketch, on values next to a rounding tie, on
    values beyond 24 bits and in the subnormal range. *)
Lemma b32_matches_SpecFloat :
  forallb (fun x => Qeq_bool (b32 x) (SF2Q (b32_sf x)))
    [0.1; 0.2; 0.8; -0.8; 2.9; 50.1; 15.2; 16.2; 16.8; 16.81625;
     20.000002; 1 # 3; -1 # 3; 16777217; 16777219; 33554435;
     1e30; 1e-30; 1e-44; 1e-45; 0.7e-45; 1.5e-45]%Q = true.
Proof. vm_compute. reflexivity. Qed.

(** The float sums the handlers compare the water temperature with:
    [targetTemp + 0.2] and [targetTemp - hysteresis] of [do_state_4], and
    the float sum for [targetTemp + hysteresis], the float just below
    16.8. *)
Lemma float_thresholds :
  (fadd targetTemp (b32 0.2) == 8493466 # 524288)%Q /\
  (fsub targetTemp (b32 hysteresis) == 15938355 # 1048576)%Q /\
  (fadd targetTemp (b32 hysteresis) == 8808038 # 524288)%Q /\
  (16.2 < fadd targetTemp (b32 0.2))%Q /\
  (fsub targetTemp (b32 hysteresis) < 15.2)%Q /\
  (fadd targetTemp (b32 hysteresis) < 16.8 < 8808039 # 524288)%Q.
Proof. vm_compute. repeat split; reflexivity. Qed.

Lemma pow2_le (a b : Z) : a <= b -> (pow2 a <= pow2 b)%Q.
Proof. intro H. apply Qpower_le_compat_l; [exact H | discriminate]. Qed.

(** The binary exponent of a value between two powers of two. *)
Lemma floor_log2_unique (a : Q) (k : Z) :
  (pow2 k <= a < pow2 (k + 1))%Q -> floor_log2 a = k.
Proof.
  intros [L U].
  assert (Ha : (0 < a)%Q) by (pose proof (pow2_pos k); lra).
  destruct (floor_log2_spec a Ha) as [L' U'].
  destruct (Z.lt_trichotomy (floor_log2 a) k) as [H | [H | H]];
    [exfalso | exact H | exfalso].
  - pose proof (pow2_le (floor_log2 a + 1) k ltac:(lia)). lra.
  - pose proof (pow2_le (k + 1) (floor_log2 a) ltac:(lia)). lra.
Qed.

(** The floats from 16 up to 32 are multiples of [2^-19]. *)
Lemma b32_grid_16 (t : Q) :
  (16 <= t < 32)%Q ->
  exists n : Z, (b32 t == inject_Z n * (1 # 524288))%Q.
Proof.
  intros [L U].
  assert (K : floor_log2 t = 4).
  { apply floor_log2_unique. split; [exact L | exact U]. }
  unfold b32. destruct t as [n d]. cbn [Qnum].
  destruct n as [| p | p];
    [exfalso; unfold Qle in L; cbn in L; lia | |
     exfalso; unfold Qle in L; cbn in L; lia].
  unfold b32_pos. rewrite K.
  change (Z.max (4 - 23) (-149)) with (-19).
  change (pow2 (-19)) with (1 # 524288)%Q.
  eexists. reflexivity.
Qed.

(** [do_state_1] and [do_state_5] compare the water temperature with the
    float sum [targetTemp + hysteresis], the float just below 16.8; no
    float lies between the two, so on every float the test agrees with the
    comparison with 16.8. *)
Lemma water_exit_threshold (t : Q) :
  (b32 t == t)%Q ->
  Qgtb t (fadd targetTemp (b32 hysteresis)) = Qgtb t (targetTemp + hysteresis).
Proof.
  intro R.
  destruct float_thresholds as (_ & _ & E & _ & _ & Lo & Hi).
  destruct (Qgtb t (targetTemp + hysteresis)) eqn:G.
  - apply Qgtb_true in G. apply Qgtb_true.
    unfold targetTemp, hysteresis in G. lra.
  - apply Qgtb_false in G. apply Qgtb_false. rewrite E.
    unfold targetTemp, hysteresis in G.
    apply Qnot_lt_le. intro F.
    destruct (b32_grid_16 t) as [n Hn]; [lra |].
    rewrite R in Hn.
    assert (A : (8808038 < inject_Z n)%Q) by lra.
    assert (B : (inject_Z n < 8808039)%Q) by lra.
    unfold Qlt in A, B. cbn in A, B. lia.
Qed.

End Rounding.

(** ** Idle: which exit wins *)

Section Idle.

(** The request left by [do_state_1], by cases on its two tests. *)
Lemma do_state_1_request (g : globals) :
  state_new (fst (do_state_1 g)) =
    if Qgtb (T g) (targetTemp + hysteresis) then 2
    else if Qgtb (T2 g) (targetCaseTemp g) then 5
    else state_new g.
Proof.
  unfold do_state_1. cbn.
  destruct (Qgtb (T2 g) (targetCaseTemp g)); cbn;
    destruct (Qgtb (T g) (targetTemp + hysteresis)); reflexivity.
Qed.

End Idle.

(** C3, as stated, fails: with water at 20.0 (above 16.8) and case at 25.0
    (above the case target 22.0) both Idle exits fire, and the request is
    Starting (2), not Cooldown (5). *)
Lemma idle_both_fire_not_cooldown :
  (targetTemp + hysteresis < T idle_both)%Q /\
  (targetCaseTemp idle_both < T2 idle_both)%Q /\
  state_new (fst (do_state_1 idle_both)) = 2 /\
  state_new (fst (do_state_1 idle_both)) <> 5.
Proof.
  repeat split; try reflexivity.
  vm_compute. discriminate.
Qed.

(** C3, amended: in Idle the water test is evaluated last and overwrites the
    case test.  Whenever the water is above target plus hysteresis the
    request is Starting (2), whatever the case temperature; when the case
    test fires alone the request is Cooldown (5); when neither test fires
    the request is left as it was.  So, entered with no request pending
    ([state_new = 0], as in every pass of the duty loop), Idle requests
    Cooldown exactly when the case test fires alone, Starting exactly when
    the water test fires, and nothing otherwise. *)
Theorem idle_water_exit_wins (g : globals) :
  ((targetTemp + hysteresis < T g)%Q ->
     state_new (fst (do_state_1 g)) = 2) /\
  ((T g <= targetTemp + hysteresis)%Q -> (targetCaseTemp g < T2 g)%Q ->
     state_new (fst (do_state_1 g)) = 5) /\
  ((T g <= targetTemp + hysteresis)%Q -> (T2 g <= targetCaseTemp g)%Q ->
     state_new (fst (do_state_1 g)) = state_new g) /\
  (state_new g = 0 ->
     (state_new (fst (do_state_1 g)) = 5 <->
        (T g <= targetTemp + hysteresis)%Q /\ (targetCaseTemp g < T2 g)%Q) /\
     (state_new (fst (do_state_1 g)) = 2 <->
        (targetTemp + hysteresis < T g)%Q) /\
     (state_new (fst (do_state_1 g)) = 0 <->
        (T g <= targetTemp + hysteresis)%Q /\ (T2 g <= targetCaseTemp g)%Q)).
Proof.
  rewrite do_state_1_request.
  split; [| split; [| split]].
  - intro H. apply Qgtb_true in H. now rewrite H.
  - intros H1 H2. apply Qgtb_false in H1. apply Qgtb_true in H2.
    now rewrite H1, H2.
  - intros H1 H2. apply Qgtb_false in H1. apply Qgtb_false in H2.
    now rewrite H1, H2.
  - intro Z0. rewrite Z0.
    destruct (Qgtb (T g) (targetTemp + hysteresis)) eqn:W;
      [apply Qgtb_true in W | apply Qgtb_false in W];
      (destruct (Qgtb (T2 g) (targetCaseTemp g)) eqn:C;
        [apply Qgtb_true in C | apply Qgtb_false in C]).
    all: split; [| split]; (split; [intro A | intro A]);
      try discriminate; try reflexivity; try lra; try (split; lra);
      exfalso; lra.
Qed.

Lemma idle_water_exit_wins_witness :
  state_new (fst (do_state_1 idle_both)) = 2.
Proof.
  apply (proj1 (idle_water_exit_wins idle_both)).
  vm_compute. reflexivity.
Defined.

(** ** Holding: which exit wins *)

Section Holding.

(** The request left by [do_state_4], by cases on its three tests, the
    last one first. *)
Lemma do_state_4_request (g : globals) :
  state_new (fst (do_state_4 g)) =
    if Qltb (T g) (fsub targetTemp (b32 hysteresis)) then 5
    else if Qgtb (T g) (fadd targetTemp (b32 0.2))
            && (ulong (hold_deadline g - seconds g) <? HOLD_TIME - 5)
         then 3
    else if seconds g =? hold_deadline g then 5
    else state_new g.
Proof.
  unfold do_state_4, hold_deadline. cbn.
  destruct (state_last g =? 4); cbn;
    repeat (split_if; cbn); reflexivity.
Qed.

Lemma ulong_self (z : Z) : ulong (z - z) = 0.
Proof. now rewrite Z.sub_diag. Qed.

End Holding.

(** C4, as stated, fails: on the pass where the hold timer elapses (a) with
    the water at 17.0, above target + 0.2 (b), the remaining time is 0 < 595
    and the request is Cooling (3), not Cooldown (5). *)
Lemma holding_timer_and_warm_not_cooldown :
  seconds holding_timer_up = hold_deadline holding_timer_up /\
  (fadd targetTemp (b32 0.2) < T holding_timer_up)%Q /\
  ulong (hold_deadline holding_timer_up - seconds holding_timer_up) < 595 /\
  state_new (fst (do_state_4 holding_timer_up)) = 3 /\
  state_new (fst (do_state_4 holding_timer_up)) <> 5.
Proof.
  repeat split; try reflexivity.
  vm_compute. discriminate.
Qed.

(** C4, amended: the three tests of Holding are evaluated in the order (a)
    timer, (b) warm water, (c) cold water, and a later test overwrites the
    request of an earlier one.  The water temperature is compared with the
    float sums [targetTemp + 0.2] and [targetTemp - hysteresis].  So (c)
    always yields Cooldown (5); (b) yields Cooling (3) also on the pass
    where the timer elapses; the timer alone yields Cooldown (5); and when
    no test fires the request is left as it was. *)
Theorem holding_later_test_wins (g : globals) :
  ((T g < fsub targetTemp (b32 hysteresis))%Q ->
     state_new (fst (do_state_4 g)) = 5) /\
  ((fadd targetTemp (b32 0.2) < T g)%Q ->
   ulong (hold_deadline g - seconds g) < HOLD_TIME - 5 ->
     state_new (fst (do_state_4 g)) = 3) /\
  ((fadd targetTemp (b32 0.2) < T g)%Q -> seconds g = hold_deadline g ->
     state_new (fst (do_state_4 g)) = 3) /\
  ((T g <= fadd targetTemp (b32 0.2))%Q -> seconds g = hold_deadline g ->
     state_new (fst (do_state_4 g)) = 5) /\
  ((fsub targetTemp (b32 hysteresis) <= T g)%Q ->
   (T g <= fadd targetTemp (b32 0.2))%Q \/
     HOLD_TIME - 5 <= ulong (hold_deadline g - seconds g) ->
   seconds g <> hold_deadline g ->
     state_new (fst (do_state_4 g)) = state_new g).
Proof.
  rewrite do_state_4_request.
  assert (W : (fadd targetTemp (b32 0.2) < T g)%Q ->
              Qltb (T g) (fsub targetTemp (b32 hysteresis)) = false).
  { intro H. apply Qltb_false.
    destruct float_thresholds as (A & B & _). rewrite A in H. rewrite B.
    lra. }
  split; [| split; [| split; [| split]]].
  - intro H. apply Qltb_true in H. now rewrite H.
  - intros H L. rewrite (W H). apply Qgtb_true in H. rewrite H.
    apply Z.ltb_lt in L. now rewrite L.
  - intros H E. rewrite (W H). apply Qgtb_true in H. rewrite H.
    rewrite <- E, ulong_self. reflexivity.
  - intros H E. apply Qgtb_false in H. rewrite H, <- E, Z.eqb_refl. cbn.
    now destruct (Qltb (T g) (fsub targetTemp (b32 hysteresis))).
  - intros C B N. apply Qltb_false in C. rewrite C.
    apply Z.eqb_neq in N. rewrite N.
    destruct B as [B | B].
    + apply Qgtb_false in B. now rewrite B.
    + apply Z.ltb_ge in B. rewrite B. now rewrite andb_false_r.
Qed.

Lemma holding_later_test_wins_witness :
  state_new (fst (do_state_4 holding_timer_up)) = 3.
Proof.
  apply (proj1 (proj2 (proj2 (holding_later_test_wins holding_timer_up)))).
  - vm_compute. reflexivity.
  - reflexivity.
Defined.

(** ** Sensor filter: damping *)

Section Filter.

(** The filtered values [read_temp] leaves, by cases on the sentinel. *)
Lemma read_temp_T (c1 c2 : Q) (g : globals) :
  T (read_temp c1 c2 g) =
    if Qnonzero (Tlast g)
    then fdiv (fadd (fmul (Tlast g) 199.0) c1) 200.0 else c1.
Proof.
  unfold read_temp. cbn.
  destruct (Qnonzero (Tlast g)); cbn;
    destruct (Qnonzero (T2last g)); reflexivity.
Qed.

Lemma read_temp_T2 (c1 c2 : Q) (g : globals) :
  T2 (read_temp c1 c2 g) =
    if Qnonzero (T2last g)
    then fdiv (fadd (fmul (T2last g) 99.0) c2) 100.0 else c2.
Proof.
  unfold read_temp. cbn.
  destruct (Qnonzero (Tlast g)); cbn;
    destruct (Qnonzero (T2last g)); reflexivity.
Qed.

(** The three roundings of the water filter move the result by at most
    [2^-22 * B + 2^-148] from the weighted mean, for values of magnitude at
    most [B]. *)
Lemma water_filter_error (p c B : Q) :
  (- B <= p <= B)%Q -> (- B <= c <= B)%Q ->
  (- (pow2 (-22) * B + pow2 (-148))
   <= fdiv (fadd (fmul p 199.0) c) 200.0 - (p * 199 + c) / 200
   <= pow2 (-22) * B + pow2 (-148))%Q.
Proof.
  intros Hp Hc. unfold fdiv, fadd, fmul.
  pose proof (pow2_pos (-150)) as Pe. fold b32_eta in Pe.
  assert (E148 : (pow2 (-148) == 4 * b32_eta)%Q)
    by (vm_compute; reflexivity).
  rewrite E148. change (pow2 (-22)) with (1 # 4194304)%Q.
  set (m := ((p * 199 + c) / 200)%Q).
  assert (Hm : (m * 200 == p * 199 + c)%Q) by (unfold m; field).
  assert (E1 : (- (199 * B) <= p * 199.0 <= 199 * B)%Q) by lra.
  apply b32_error in E1. set (x1 := b32 (p * 199.0)) in *.
  assert (E2 : (- (200 * B + (b32_u * (199 * B) + b32_eta)) <= x1 + c
                <= 200 * B + (b32_u * (199 * B) + b32_eta))%Q) by lra.
  apply b32_error in E2. set (x2 := b32 (x1 + c)) in *.
  set (q := (x2 / 200.0)%Q).
  assert (Hq : (q * 200 == x2)%Q) by (unfold q; field).
  change b32_u with (1 # 16777216)%Q in *.
  assert (E3' : (- (2 * B + b32_eta) <= q <= 2 * B + b32_eta)%Q) by lra.
  apply b32_error in E3'. change b32_u with (1 # 16777216)%Q in *.
  set (x3 := b32 q) in *.
  generalize dependent b32_eta. intros eta Pe E148 E1 E2 E3'.
  clear E148. split; lra.
Qed.

(** The same for the case filter, with weights 99 : 1. *)
Lemma case_filter_error (p c B : Q) :
  (- B <= p <= B)%Q -> (- B <= c <= B)%Q ->
  (- (pow2 (-22) * B + pow2 (-148))
   <= fdiv (fadd (fmul p 99.0) c) 100.0 - (p * 99 + c) / 100
   <= pow2 (-22) * B + pow2 (-148))%Q.
Proof.
  intros Hp Hc. unfold fdiv, fadd, fmul.
  pose proof (pow2_pos (-150)) as Pe. fold b32_eta in Pe.
  assert (E148 : (pow2 (-148) == 4 * b32_eta)%Q)
    by (vm_compute; reflexivity).
  rewrite E148. change (pow2 (-22)) with (1 # 4194304)%Q.
  set (m := ((p * 99 + c) / 100)%Q).
  assert (Hm : (m * 100 == p * 99 + c)%Q) by (unfold m; field).
  assert (E1 : (- (99 * B) <= p * 99.0 <= 99 * B)%Q) by lra.
  apply b32_error in E1. set (x1 := b32 (p * 99.0)) in *.
  assert (E2 : (- (100 * B + (b32_u * (99 * B) + b32_eta)) <= x1 + c
                <= 100 * B + (b32_u * (99 * B) + b32_eta))%Q) by lra.
  apply b32_error in E2. set (x2 := b32 (x1 + c)) in *.
  set (q := (x2 / 100.0)%Q).
  assert (Hq : (q * 100 == x2)%Q) by (unfold q; field).
  change b32_u with (1 # 16777216)%Q in *.
  assert (E3' : (- (2 * B + b32_eta) <= q <= 2 * B + b32_eta)%Q) by lra.
  apply b32_error in E3'. change b32_u with (1 # 16777216)%Q in *.
  set (x3 := b32 q) in *.
  generalize dependent b32_eta. intros eta Pe E148 E1 E2 E3'.
  clear E148. split; lra.
Qed.

(** Both values are within the larger of their magnitudes. *)
Lemma within_max_abs (p c : Q) :
  (- Qmax (Qabs p) (Qabs c) <= p <= Qmax (Qabs p) (Qabs c))%Q /\
  (- Qmax (Qabs p) (Qabs c) <= c <= Qmax (Qabs p) (Qabs c))%Q.
Proof.
  pose proof (Q.le_max_l (Qabs p) (Qabs c)) as L.
  pose proof (Q.le_max_r (Qabs p) (Qabs c)) as R.
  pose proof (proj1 (Qabs_Qle_condition p _) (Qle_refl (Qabs p))) as P.
  pose proof (proj1 (Qabs_Qle_condition c _) (Qle_refl (Qabs c))) as C.
  split; lra.
Qed.

(** A value within [s] of the weighted mean of [p] and [c], with weights
    [w : 1], lies strictly between them when they differ by more than
    [(w + 1) * s]; [d] is the divisor [w + 1]. *)
Lemma near_mean_between (w d p c s x : Q) :
  (1 <= w)%Q -> (d == w + 1)%Q ->
  (- s <= x - (p * w + c) / d <= s)%Q ->
  (d * s < Qabs (c - p))%Q ->
  strictly_between p c x.
Proof.
  intros Hw Hd Hs Hg.
  set (m := ((p * w + c) / d)%Q) in *.
  assert (E : (m * (w + 1) == p * w + c)%Q).
  { unfold m. rewrite Hd. field. lra. }
  rewrite Hd in Hg.
  assert (Pw : (0 < w + 1)%Q) by lra.
  assert (Gm : ((m - p) * (w + 1) == c - p)%Q) by lra.
  assert (Gc : ((c - m) * (w + 1) == (c - p) * w)%Q) by nra.
  destruct (Qlt_le_dec p c) as [L | G].
  - rewrite Qabs_pos in Hg by lra. left.
    assert (K1 : (s * (w + 1) < (m - p) * (w + 1))%Q) by lra.
    apply (proj1 (Qmult_lt_r _ _ _ Pw)) in K1.
    assert (K2 : (s * (w + 1) < (c - m) * (w + 1))%Q) by nra.
    apply (proj1 (Qmult_lt_r _ _ _ Pw)) in K2.
    split; lra.
  - rewrite Qabs_neg in Hg by lra. right.
    assert (K1 : (s * (w + 1) < (p - m) * (w + 1))%Q) by lra.
    apply (proj1 (Qmult_lt_r _ _ _ Pw)) in K1.
    assert (K2 : (s * (w + 1) < (m - c) * (w + 1))%Q) by nra.
    apply (proj1 (Qmult_lt_r _ _ _ Pw)) in K2.
    split; lra.
Qed.

(** The filter of the sketch absorbs a close reading: from 20.0 and the
    float one unit in the last place above it, the sum 3980 + 20.000002
    rounds to 4000 and the filtered value is 20.0 again. *)
Lemma filter_absorbs_close_reading :
  let g := read_temp 20.0 20.0 power_on in
  let raw := (10485761 # 524288)%Q in
  (b32 raw == raw)%Q /\
  (Tlast g == 20.0)%Q /\
  (Tlast g < raw)%Q /\
  (T (read_temp raw 20.0 g) == Tlast g)%Q.
Proof. vm_compute. repeat split; reflexivity. Qed.

(** The filter of the sketch drifts on an equal reading: when the previous
    filtered value and the reading are both the float nearest to 15.001, the
    filtered value is below it. *)
Lemma filter_drifts_on_equal_reading :
  let x := b32 15.001 in
  let g := read_temp x 20.0 power_on in
  (Tlast g == x)%Q /\
  (T (read_temp x 20.0 g) < x)%Q.
Proof. vm_compute. repeat split; reflexivity. Qed.

(** [SpecFloat] gives the same two results: from 20.0 and the float one
    unit in the last place above it the filtered value is 20.0 again. *)
Lemma filter_rounding_absorbs :
  let prev := b32_of_Z 20 in
  let raw := S754_finite false 10485761 (-19) in
  prev = S754_finite false 10485760 (-19) /\
  SFltb prev raw = true /\
  ema199_b32 prev raw = prev.
Proof.
  cbv zeta. repeat split; vm_compute; reflexivity.
Qed.

(** For the float nearest to 15.001 as both values the result is below
    it, and it is the float [read_temp] computes. *)
Lemma filter_rounding_drifts :
  let x := SFdiv 24 128 (b32_of_Z 15001) (b32_of_Z 1000) in
  SFltb (ema199_b32 x x) x = true /\
  (SF2Q x == b32 15.001)%Q /\
  (SF2Q (ema199_b32 x x)
   == T (read_temp (b32 15.001) 20.0 (read_temp (b32 15.001) 20.0 power_on)))%Q.
Proof.
  vm_compute. repeat split; reflexivity.
Qed.

End Filter.

(** C8, as stated, fails.  After a first sample of 20.0 on both sensors, a
    second sample that again converts to 20.0 gives filtered values equal to
    20.0, which is not strictly between 20.0 and 20.0.  And after a first
    sample that converts to exactly 0, the sentinel test re-seeds the filter:
    the next filtered value is the converted value 5.0 itself. *)
Lemma filter_not_always_strict :
  (let g1 := read_temp 20.0 20.0 power_on in
   (T (read_temp 20.0 20.0 g1) == 20.0)%Q /\
   ~ strictly_between (Tlast g1) 20.0 (T (read_temp 20.0 20.0 g1)) /\
   ~ strictly_between (T2last g1) 20.0 (T2 (read_temp 20.0 20.0 g1))) /\
  (let g1 := read_temp 0 20.0 power_on in
   T (read_temp 5.0 20.0 g1) = 5.0%Q /\
   ~ strictly_between (Tlast g1) 5.0 (T (read_temp 5.0 20.0 g1))).
Proof.
  split; cbv zeta.
  - split; [vm_compute; reflexivity|].
    split; intros [[A B] | [A B]]; vm_compute in A, B; discriminate.
  - split; [reflexivity|].
    intros [[A B] | [A B]]; vm_compute in A, B; discriminate.
Qed.

(** C8, amended: the filter computes the weighted mean of the previous
    filtered value and the newly converted value, weights 199:1 (water) and
    99:1 (case), in three float operations, each rounded to binary32.  For a
    previous filtered value that is not the sentinel 0, and as long as no
    operation overflows, the new filtered value is within [slack] (a few
    units in the last place of the larger of the two values) of the exact
    weighted mean, and it lies strictly between the two values whenever
    they differ by more than 200 times (water) or 100 times (case) that
    slack; for values of magnitude at most 64 that is whenever they differ
    by more than 0.0031 (water) or 0.0016 (case).  When the previous
    filtered value is 0 the filter is seeded with the converted value. *)
Theorem filter_damps (c1 c2 : Q) (g : globals) :
  (~ (Tlast g == 0)%Q -> float_range (Tlast g) -> float_range c1 ->
     (Qabs (T (read_temp c1 c2 g) - (Tlast g * 199 + c1) / 200)
      <= slack (Tlast g) c1)%Q /\
     ((200 * slack (Tlast g) c1 < Qabs (c1 - Tlast g))%Q ->
        strictly_between (Tlast g) c1 (T (read_temp c1 c2 g)))) /\
  (~ (T2last g == 0)%Q -> float_range (T2last g) -> float_range c2 ->
     (Qabs (T2 (read_temp c1 c2 g) - (T2last g * 99 + c2) / 100)
      <= slack (T2last g) c2)%Q /\
     ((100 * slack (T2last g) c2 < Qabs (c2 - T2last g))%Q ->
        strictly_between (T2last g) c2 (T2 (read_temp c1 c2 g)))) /\
  (~ (Tlast g == 0)%Q -> (Qabs (Tlast g) <= 64)%Q -> (Qabs c1 <= 64)%Q ->
   (0.0031 < Qabs (c1 - Tlast g))%Q ->
     strictly_between (Tlast g) c1 (T (read_temp c1 c2 g))) /\
  (~ (T2last g == 0)%Q -> (Qabs (T2last g) <= 64)%Q -> (Qabs c2 <= 64)%Q ->
   (0.0016 < Qabs (c2 - T2last g))%Q ->
     strictly_between (T2last g) c2 (T2 (read_temp c1 c2 g))) /\
  ((Tlast g == 0)%Q -> T (read_temp c1 c2 g) = c1) /\
  ((T2last g == 0)%Q -> T2 (read_temp c1 c2 g) = c2).
Proof.
  rewrite read_temp_T, read_temp_T2.
  split; [| split; [| split; [| split; [| split]]]].
  - intros Hz _ _. apply Qnonzero_true in Hz. rewrite Hz.
    destruct (within_max_abs (Tlast g) c1) as [P C].
    pose proof (water_filter_error _ _ _ P C) as E.
    fold (slack (Tlast g) c1) in E.
    split.
    + apply Qabs_Qle_condition. exact E.
    + intro G. apply (near_mean_between 199 200 _ _ _ _) with (3 := E);
        [discriminate | reflexivity | exact G].
  - intros Hz _ _. apply Qnonzero_true in Hz. rewrite Hz.
    destruct (within_max_abs (T2last g) c2) as [P C].
    pose proof (case_filter_error _ _ _ P C) as E.
    fold (slack (T2last g) c2) in E.
    split.
    + apply Qabs_Qle_condition. exact E.
    + intro G. apply (near_mean_between 99 100 _ _ _ _) with (3 := E);
        [discriminate | reflexivity | exact G].
  - intros Hz P C G. apply Qnonzero_true in Hz. rewrite Hz.
    apply Qabs_Qle_condition in P. apply Qabs_Qle_condition in C.
    pose proof (water_filter_error _ _ _ P C) as E.
    apply (near_mean_between 199 200 _ _ _ _) with (3 := E);
      [discriminate | reflexivity |].
    refine (Qlt_trans _ 0.0031 _ _ G). vm_compute. reflexivity.
  - intros Hz P C G. apply Qnonzero_true in Hz. rewrite Hz.
    apply Qabs_Qle_condition in P. apply Qabs_Qle_condition in C.
    pose proof (case_filter_error _ _ _ P C) as E.
    apply (near_mean_between 99 100 _ _ _ _) with (3 := E);
      [discriminate | reflexivity |].
    refine (Qlt_trans _ 0.0016 _ _ G). vm_compute. reflexivity.
  - intro Hz. apply Qnonzero_false in Hz. now rewrite Hz.
  - intro Hz. apply Qnonzero_false in Hz. now rewrite Hz.
Qed.

Lemma filter_damps_witness :
  strictly_between 20.0 24.0
    (T (read_temp 24.0 21.0 (read_temp 20.0 20.0 power_on))).
Proof.
  refine (proj2 (proj1 (filter_damps 24.0 21.0
                          (read_temp 20.0 20.0 power_on)) _ _ _) _).
  - vm_compute. discriminate.
  - vm_compute. discriminate.
  - vm_compute. discriminate.
  - vm_compute. reflexivity.
Defined.

(** ** Anatomy of a pass *)

Section Pass.

Lemma duty_pass_blocks (i : sample) (g : globals) :
  duty_pass i g =
    do g1 <- dispatch (sensed i g);
    do g2 <- safeguards (change_state g1);
    Running (housekeeping (ticked i g) g2).
Proof.
  unfold duty_pass, sensed, ticked.
  destruct (second_counter (set_thisTick (millis i) g)) as [g0 tick].
  reflexivity.
Qed.

(** A property of the variables that every step of a computation keeps
    holds of its outcome. *)
Lemma bind_vars (P : globals -> Prop) (o : outcome)
      (k : globals -> outcome) :
  P (vars o) -> (forall g, P g -> P (vars (k g))) -> P (vars (bind o k)).
Proof.
  destruct o as [g | e g]; cbn; auto.
Qed.

Lemma duty_loop_halted (input : list sample) (err : Z) (g : globals) :
  duty_loop input (Halted err g) = Halted err g.
Proof.
  induction input as [| i rest IH]; cbn; auto.
Qed.

(** Induction over a run of the duty loop. *)
Lemma duty_loop_vars (P : globals -> Prop) :
  (forall i g, P g -> P (vars (duty_pass i g))) ->
  forall input o, P (vars o) -> P (vars (duty_loop input o)).
Proof.
  intros Step input. induction input as [| i rest IH]; intros o Ho.
  - exact Ho.
  - cbn [duty_loop]. apply IH. apply bind_vars; auto.
Qed.

End Pass.

(** ** The second counter leaves the rest alone *)

Section Frames.

Lemma second_counter_frame (g : globals) :
  let g' := fst (second_counter g) in
  T g' = T g /\ T2 g' = T2 g /\ Tlast g' = Tlast g /\
  T2last g' = T2last g /\ targetCaseTemp g' = targetCaseTemp g /\
  state g' = state g /\ state_last g' = state_last g /\
  state_new g' = state_new g /\ st5_timer g' = st5_timer g /\
  port g' = port g.
Proof.
  unfold second_counter.
  repeat split_if; cbn; repeat split; reflexivity.
Qed.

Lemma read_temp_frame (c1 c2 : Q) (g : globals) :
  let g' := read_temp c1 c2 g in
  targetCaseTemp g' = targetCaseTemp g /\
  seconds g' = seconds g /\ nextSecondTick g' = nextSecondTick g /\
  state g' = state g /\ state_last g' = state_last g /\
  state_new g' = state_new g /\ st5_timer g' = st5_timer g /\
  port g' = port g.
Proof.
  unfold read_temp. cbn.
  destruct (Qnonzero (Tlast g)); cbn;
    destruct (Qnonzero (T2last g)); cbn; repeat split; reflexivity.
Qed.

Lemma set_state_new_frame (v : Z) (g : globals) :
  let g' := set_state_new v g in
  T g' = T g /\ T2 g' = T2 g /\ targetCaseTemp g' = targetCaseTemp g /\
  state g' = state g /\ state_last g' = state_last g /\
  state_new g' = v /\ st5_timer g' = st5_timer g /\ port g' = port g.
Proof. cbn. repeat split; reflexivity. Qed.

(** [sensed] with the result of the second counter abstracted. *)
Lemma sensed_frame_from (c1 c2 : Q) (g g1 : globals) :
  Tlast g1 = Tlast g -> T2last g1 = T2last g ->
  targetCaseTemp g1 = targetCaseTemp g ->
  state g1 = state g -> state_last g1 = state_last g ->
  st5_timer g1 = st5_timer g -> port g1 = port g ->
  let g' := set_state_new 0 (read_temp c1 c2 g1) in
  T g' = T (read_temp c1 c2 g) /\ T2 g' = T2 (read_temp c1 c2 g) /\
  targetCaseTemp g' = targetCaseTemp g /\
  state g' = state g /\ state_last g' = state_last g /\
  state_new g' = 0 /\ st5_timer g' = st5_timer g /\
  port g' = port g.
Proof.
  intros HTl HT2l Htc Hst Hsl Ht5 Hp. cbv zeta.
  destruct (set_state_new_frame 0 (read_temp c1 c2 g1))
    as (-> & -> & -> & -> & -> & -> & -> & ->).
  destruct (read_temp_frame c1 c2 g1)
    as (-> & _ & _ & -> & -> & _ & -> & ->).
  rewrite !read_temp_T, !read_temp_T2, HTl, HT2l.
  repeat split; assumption.
Qed.

Lemma sensed_frame (i : sample) (g : globals) :
  let g' := sensed i g in
  T g' = T (read_temp (celsius1 i) (celsius2 i) g) /\
  T2 g' = T2 (read_temp (celsius1 i) (celsius2 i) g) /\
  targetCaseTemp g' = targetCaseTemp g /\
  state g' = state g /\ state_last g' = state_last g /\
  state_new g' = 0 /\ st5_timer g' = st5_timer g /\
  port g' = port g.
Proof.
  destruct (second_counter_frame (set_thisTick (millis i) g))
    as (_ & _ & HTl & HT2l & Htc & Hst & Hsl & _ & Ht5 & Hp).
  exact (sensed_frame_from (celsius1 i) (celsius2 i) g _
           HTl HT2l Htc Hst Hsl Ht5 Hp).
Qed.

End Frames.

(** ** The state handlers, one by one *)

Section Handlers.

Lemma handler_of_some (s : Z) (h : globals -> globals * Z) :
  handler_of s = Some h -> 1 <= s <= 5 /\ In h handlers.
Proof.
  unfold handler_of, handlers.
  repeat split_if; intro E; inversion E; subst; clear E;
    repeat match goal with
           | H : (_ =? _) = true |- _ => apply Z.eqb_eq in H
           end;
    (split; [lia | cbn; tauto]).
Qed.

Lemma handler_of_none (s : Z) :
  handler_of s = None <-> ~ (1 <= s <= 5).
Proof.
  unfold handler_of.
  repeat split_if;
    repeat match goal with
           | H : (_ =? _) = true |- _ => apply Z.eqb_eq in H
           | H : (_ =? _) = false |- _ => apply Z.eqb_neq in H
           end;
    split; intro N; try discriminate; try lia; try reflexivity.
Qed.


(** Every handler returns 0, so [errmesg(11)] is never called. *)
Lemma handler_returns_0 (h : globals -> globals * Z) (g : globals) :
  In h handlers -> snd (h g) = 0.
Proof.
  unfold handlers. cbn [In].
  intros [<- | [<- | [<- | [<- | [<- | []]]]]]; reflexivity.
Qed.

(** No handler touches [state], the temperatures or the clock. *)
Lemma handler_frame (h : globals -> globals * Z) (g : globals) :
  In h handlers ->
  let g' := fst (h g) in
  state g' = state g /\ T g' = T g /\ T2 g' = T2 g /\
  seconds g' = seconds g /\ nextSecondTick g' = nextSecondTick g.
Proof.
  unfold handlers. cbn [In].
  intros [<- | [<- | [<- | [<- | [<- | []]]]]];
    unfold do_state_1, do_state_2, do_state_3, do_state_4, do_state_5,
           adapt_case_target;
    repeat (cbn; split_if); cbn; repeat split; reflexivity.
Qed.

(** A handler entered with [state_new = 0] leaves a request in 0..5. *)
Lemma handler_request (h : globals -> globals * Z) (g : globals) :
  In h handlers -> state_new g = 0 -> 0 <= state_new (fst (h g)) <= 5.
Proof.
  unfold handlers. cbn [In].
  intros [<- | [<- | [<- | [<- | [<- | []]]]]] E;
    unfold do_state_1, do_state_2, do_state_3, do_state_4, do_state_5,
           adapt_case_target;
    repeat (cbn; split_if); cbn; rewrite ?E; lia.
Qed.

(** The pins a handler writes: fan, compressor, solenoid, in this order. *)
Lemma handler_port (h : globals -> globals * Z) (g : globals) :
  In h handlers ->
  exists a b c,
    port (fst (h g)) =
      (SolenoidPin, c) :: (CompressorPin, b) :: (FanPin, a) :: port g.
Proof.
  unfold handlers. cbn [In].
  intros [<- | [<- | [<- | [<- | [<- | []]]]]];
    unfold do_state_1, do_state_2, do_state_3, do_state_4, do_state_5,
           adapt_case_target;
    repeat (cbn; split_if); cbn; eauto.
Qed.

(** The first four handlers leave the case target alone. *)
Lemma handler_case_target (h : globals -> globals * Z) (g : globals) :
  In h [do_state_1; do_state_2; do_state_3; do_state_4] ->
  targetCaseTemp (fst (h g)) = targetCaseTemp g.
Proof.
  cbn [In].
  intros [<- | [<- | [<- | [<- | []]]]];
    unfold do_state_1, do_state_2, do_state_3, do_state_4;
    repeat (cbn; split_if); reflexivity.
Qed.

Lemma dispatch_handler (g : globals) :
  dispatch g =
    match handler_of (state g) with
    | Some h => Running (fst (h g))
    | None => errmesg 99 g
    end.
Proof.
  unfold dispatch, handler_of.
  repeat split_if; reflexivity.
Qed.

End Handlers.

(** ** Fatal halt, safeguards and bookkeeping *)

Section Halting.

Lemma errmesg_halts (err : Z) (g : globals) :
  exists g', errmesg err g = Halted err g' /\
    port g' = (SolenoidPin, HIGH) :: (CompressorPin, HIGH)
                :: (FanPin, HIGH) :: port g /\
    targetCaseTemp g' = targetCaseTemp g /\ state g' = state g.
Proof.
  eexists. split; [reflexivity|]. cbn. repeat split; reflexivity.
Qed.

Lemma errmesg_actuators_off (err : Z) (g : globals) :
  actuators_off (vars (errmesg err g)).
Proof.
  unfold actuators_off. cbn. repeat split; reflexivity.
Qed.

(** The safeguards either pass and change nothing, or end in [errmesg]
    with code 1 (water) or 2 (case). *)
Lemma safeguards_cases (g : globals) :
  (safeguards g = Running g /\
   Qltb (T g) T_MIN || Qgtb (T g) T_MAX = false /\
   Qltb (T2 g) T2_MIN || Qgtb (T2 g) T2_MAX = false) \/
  (safeguards g = errmesg 1 g /\
   Qltb (T g) T_MIN || Qgtb (T g) T_MAX = true) \/
  (safeguards g = errmesg 2 g /\
   Qltb (T g) T_MIN || Qgtb (T g) T_MAX = false /\
   Qltb (T2 g) T2_MIN || Qgtb (T2 g) T2_MAX = true).
Proof.
  unfold safeguards.
  destruct (Qltb (T g) T_MIN || Qgtb (T g) T_MAX) eqn:E1; cbn.
  - right. left. auto.
  - destruct (Qltb (T2 g) T2_MIN || Qgtb (T2 g) T2_MAX) eqn:E2; auto.
Qed.

Lemma change_state_frame (g : globals) :
  let g' := change_state g in
  T g' = T g /\ T2 g' = T2 g /\ targetCaseTemp g' = targetCaseTemp g /\
  port g' = port g /\
  state g' = (if state_new g =? 0 then state g else state_new g).
Proof.
  unfold change_state. cbn. split_if; cbn; repeat split; reflexivity.
Qed.

Lemma housekeeping_frame (tick : bool) (g : globals) :
  let g' := housekeeping tick g in
  targetCaseTemp g' = targetCaseTemp g /\ state g' = state g /\
  port g' = port g.
Proof.
  unfold housekeeping. split_if; cbn; repeat split; reflexivity.
Qed.

(** What the safeguards and the bookkeeping at the end of a pass keep. *)
Lemma tail_frame (tick : bool) (g : globals) :
  let g' := vars (do g2 <- safeguards g; Running (housekeeping tick g2)) in
  targetCaseTemp g' = targetCaseTemp g /\ state g' = state g.
Proof.
  destruct (safeguards_cases g) as [(E & _) | [(E & _) | (E & _)]];
    rewrite E; cbn; [| split; reflexivity ..].
  destruct (housekeeping_frame tick g) as (A & B & _). now split.
Qed.

End Halting.

(** ** Cooldown and the case-target adaptation *)

Section Cooldown.

Lemma do_state_5_case_target (g : globals) :
  targetCaseTemp (fst (do_state_5 g)) =
    if seconds g =? cooldown_deadline g
    then adapted (targetCaseTemp g) (T2 g) else targetCaseTemp g.
Proof.
  unfold do_state_5, cooldown_deadline, adapt_case_target, adapted. cbn.
  destruct (state_last g =? 5); cbn;
    repeat (split_if; cbn); reflexivity.
Qed.


Lemma adapted_le_roof (tc t2 : Q) : (adapted tc t2 <= CASE_TEMP_ROOF)%Q.
Proof.
  unfold adapted. cbv zeta. split_if.
  - apply Qle_refl.
  - now apply Qgtb_false.
Qed.


(** The case target after a pass. *)
Lemma duty_pass_case_target (i : sample) (g : globals) :
  targetCaseTemp (vars (duty_pass i g)) =
    if (state g =? 5)
       && (seconds (sensed i g) =? cooldown_deadline (sensed i g))
    then adapted (targetCaseTemp g) (T2 (sensed i g))
    else targetCaseTemp g.
Proof.
  rewrite duty_pass_blocks, dispatch_handler.
  destruct (sensed_frame i g) as (_ & _ & Htc & Hst & _).
  rewrite Hst, <- Htc.
  destruct (handler_of (state g)) as [h |] eqn:Hh.
  - cbn [bind].
    destruct (tail_frame (ticked i g) (change_state (fst (h (sensed i g)))))
      as [-> _].
    destruct (change_state_frame (fst (h (sensed i g))))
      as (_ & _ & -> & _).
    destruct (state g =? 5) eqn:E5; cbn [andb].
    + apply Z.eqb_eq in E5. rewrite E5 in Hh. inversion Hh; subst h.
      apply do_state_5_case_target.
    + apply handler_case_target. revert Hh. unfold handler_of.
      rewrite E5.
      repeat split_if; intro E; inversion E; subst h; cbn; tauto.
  - apply handler_of_none in Hh.
    destruct (state g =? 5) eqn:E5; [apply Z.eqb_eq in E5; lia |].
    destruct (errmesg_halts 99 (sensed i g)) as (g' & E & _ & Htc' & _).
    rewrite E. exact Htc'.
Qed.


End Cooldown.






(** ** Start-up *)

Section Startup.

Variable warm : nat -> Q * Q.
Variables m1 m2 : Z.

Lemma settle_loop_frame (ks : list nat) (g : globals) :
  let g' := fold_left
              (fun g i => read_temp (fst (warm i)) (snd (warm i)) g) ks g in
  targetCaseTemp g' = targetCaseTemp g /\ state g' = state g /\
  port g' = port g.
Proof.
  revert g. induction ks as [| k ks IH]; intro g; cbn [fold_left].
  - repeat split; reflexivity.
  - destruct (IH (read_temp (fst (warm k)) (snd (warm k)) g))
      as (A & B & C).
    destruct (read_temp_frame (fst (warm k)) (snd (warm k)) g)
      as (A' & _ & _ & B' & _ & _ & _ & C').
    cbv zeta. rewrite A, B, C, A', B', C'. repeat split; reflexivity.
Qed.

Lemma settle_frame (g : globals) :
  targetCaseTemp (settle warm g) = targetCaseTemp g /\
  state (settle warm g) = state g /\ port (settle warm g) = port g.
Proof. unfold settle. exact (settle_loop_frame (seq 0 200) g). Qed.

Lemma startup_blocks :
  startup warm m1 m2 =
    do g <- safeguards (settle warm (setup power_on));
    Running (hand_over m1 m2 g).
Proof. reflexivity. Qed.

Lemma hand_over_frame (g : globals) :
  let g' := hand_over m1 m2 g in
  targetCaseTemp g' = targetCaseTemp g /\ state g' = 1 /\
  port g' = (FanPin, HIGH) :: (FanPin, LOW) :: (SolenoidPin, HIGH)
              :: (SolenoidPin, LOW) :: port g.
Proof. cbn. repeat split; reflexivity. Qed.

(** Start-up either halts in the safeguards or hands over in Idle; the
    case target is the initial 22.0 either way. *)
Lemma startup_cases :
  let o := startup warm m1 m2 in
  targetCaseTemp (vars o) = targetCaseTemp power_on /\
  ((exists g, o = Running g /\ state g = 1) \/
   (exists err g, o = Halted err g /\ (err = 1 \/ err = 2))).
Proof.
  cbv zeta. rewrite startup_blocks.
  pose proof (proj1 (settle_frame (setup power_on))) as Htc.
  revert Htc. generalize (settle warm (setup power_on)) as g0.
  intros g0 Htc.
  destruct (safeguards_cases g0) as [(E & _) | [(E & _) | (E & _)]];
    rewrite E.
  - cbn [bind vars].
    destruct (hand_over_frame g0) as (A & B & _).
    split; [now rewrite A |]. left. eauto.
  - destruct (errmesg_halts 1 g0) as (g' & -> & _ & A & _).
    cbn [bind vars]. split; [now rewrite A |]. right. eauto.
  - destruct (errmesg_halts 2 g0) as (g' & -> & _ & A & _).
    cbn [bind vars]. split; [now rewrite A |]. right. eauto.
Qed.

(** The only write to the pump pin during start-up is the one of
    [setup()]. *)
Lemma startup_pump :
  pump_writes (port (vars (startup warm m1 m2))) = [(PumpPin, HIGH)].
Proof.
  rewrite startup_blocks.
  pose proof (proj2 (proj2 (settle_frame (setup power_on)))) as Hp.
  revert Hp. generalize (settle warm (setup power_on)) as g0.
  intros g0 Hp.
  destruct (safeguards_cases g0) as [(E & _) | [(E & _) | (E & _)]];
    rewrite E.
  - cbn [bind vars].
    destruct (hand_over_frame g0) as (_ & _ & ->).
    rewrite Hp. reflexivity.
  - destruct (errmesg_halts 1 g0) as (g' & -> & Hp' & _).
    cbn [bind vars]. rewrite Hp', Hp. reflexivity.
  - destruct (errmesg_halts 2 g0) as (g' & -> & Hp' & _).
    cbn [bind vars]. rewrite Hp', Hp. reflexivity.
Qed.

End Startup.

(** C7: along every run, from power-on through start-up and any number of
    passes of the duty loop on any sensor and clock readings, the case
    target is at most 30: the initial 22.0 is, and a pass either keeps the
    target or sets it to a clamped value. *)
Theorem case_target_never_above_roof
        (warm : nat -> Q * Q) (m1 m2 : Z) (input : list sample) :
  (targetCaseTemp power_on <= CASE_TEMP_ROOF)%Q /\
  (targetCaseTemp (vars (run warm m1 m2 input)) <= CASE_TEMP_ROOF)%Q.
Proof.
  assert (H0 : (targetCaseTemp power_on <= CASE_TEMP_ROOF)%Q)
    by (vm_compute; discriminate).
  split; [exact H0|].
  unfold run.
  apply (duty_loop_vars (fun g => (targetCaseTemp g <= CASE_TEMP_ROOF)%Q)).
  - intros i g Hg. rewrite duty_pass_case_target.
    split_if; [apply adapted_le_roof | exact Hg].
  - destruct (startup_cases warm m1 m2) as [-> _]. exact H0.
Qed.

(** ** The active state stays in 1..5 *)

Section ActiveState.

Lemma handler_of_valid (s : Z) :
  1 <= s <= 5 -> exists h, handler_of s = Some h.
Proof.
  intro H. destruct (handler_of s) as [h |] eqn:E; [eauto |].
  apply handler_of_none in E. contradiction.
Qed.

(** A pass from a state of 1..5: the handler runs, the state changes on
    request, and the safeguards decide between running on and halting. *)
Lemma duty_pass_valid (i : sample) (g : globals) :
  1 <= state g <= 5 ->
  exists h g1,
    In h handlers /\
    g1 = change_state (fst (h (sensed i g))) /\
    1 <= state g1 <= 5 /\
    duty_pass i g =
      (do g2 <- safeguards g1; Running (housekeeping (ticked i g) g2)).
Proof.
  intro Hs.
  destruct (handler_of_valid _ Hs) as [h Hh].
  destruct (handler_of_some _ _ Hh) as [_ Hin].
  destruct (sensed_frame i g) as (_ & _ & _ & Hst & _ & Hnew & _).
  exists h, (change_state (fst (h (sensed i g)))).
  split; [exact Hin|]. split; [reflexivity|]. split.
  - destruct (change_state_frame (fst (h (sensed i g))))
      as (_ & _ & _ & _ & ->).
    pose proof (handler_request h (sensed i g) Hin Hnew) as Hr.
    destruct (handler_frame h (sensed i g) Hin) as (-> & _).
    rewrite Hst.
    destruct (state_new (fst (h (sensed i g))) =? 0) eqn:E;
      [exact Hs | apply Z.eqb_neq in E; lia].
  - rewrite duty_pass_blocks, dispatch_handler, Hst, Hh. reflexivity.
Qed.

Lemma duty_pass_sound (i : sample) (g : globals) :
  sound (Running g) -> sound (duty_pass i g).
Proof.
  cbn [sound]. intro Hs.
  destruct (duty_pass_valid i g Hs) as (h & g1 & _ & _ & H1 & ->).
  destruct (safeguards_cases g1) as [(E & _) | [(E & _) | (E & _)]];
    rewrite E; cbn [bind errmesg sound]; [| now left | now right].
  now rewrite (proj1 (proj2 (housekeeping_frame (ticked i g) g1))).
Qed.

Lemma duty_loop_sound (input : list sample) (o : outcome) :
  sound o -> sound (duty_loop input o).
Proof.
  revert o. induction input as [| i rest IH]; intros o Ho; [exact Ho|].
  cbn [duty_loop]. apply IH.
  destruct o as [g | err g]; cbn [bind]; [|exact Ho].
  now apply duty_pass_sound.
Qed.

End ActiveState.

(** C10: every handler, entered with [state_new = 0] as the duty loop does,
    leaves a request in 0..5; and along every run the outcome is either
    running in a state of 1..5 or halted by a safeguard with code 1 or 2, so
    the [errmesg(99)] branch (and [errmesg(11)]) is never taken. *)
Theorem active_state_always_valid
        (warm : nat -> Q * Q) (m1 m2 : Z) (input : list sample) :
  Forall (fun h => forall g,
            0 <= state_new (fst (h (set_state_new 0 g))) <= 5) handlers /\
  match run warm m1 m2 input with
  | Running g => 1 <= state g <= 5
  | Halted err _ => err <> 99 /\ err <> 11 /\ (err = 1 \/ err = 2)
  end.
Proof.
  split.
  - apply Forall_forall. intros h Hin g.
    now apply handler_request.
  - assert (S : sound (run warm m1 m2 input)).
    { unfold run. apply duty_loop_sound.
      destruct (startup_cases warm m1 m2) as [_ [(g & -> & E) | (e & g & -> & E)]];
        cbn [sound]; [lia | exact E]. }
    destruct (run warm m1 m2 input) as [g | err g]; cbn [sound] in S;
      [exact S | lia].
Qed.

(** ** Safeguards *)

Section Safeguards.

(** The filtered temperatures the safeguards of a pass look at are the
    ones [read_temp] produces from the variables at the start of the
    pass. *)
Lemma safeguarded_temps (i : sample) (g : globals)
      (h : globals -> globals * Z) :
  In h handlers ->
  let g1 := change_state (fst (h (sensed i g))) in
  T g1 = T (read_temp (celsius1 i) (celsius2 i) g) /\
  T2 g1 = T2 (read_temp (celsius1 i) (celsius2 i) g).
Proof.
  intro Hin. cbv zeta.
  destruct (change_state_frame (fst (h (sensed i g))))
    as (-> & -> & _).
  destruct (handler_frame h (sensed i g) Hin) as (_ & -> & -> & _).
  destruct (sensed_frame i g) as (-> & -> & _).
  split; reflexivity.
Qed.

Lemma out_of_bounds_test (g : globals) :
  out_of_bounds g ->
  Qltb (T g) T_MIN || Qgtb (T g) T_MAX = true \/
  Qltb (T2 g) T2_MIN || Qgtb (T2 g) T2_MAX = true.
Proof.
  intros [H | [H | [H | H]]].
  - left. apply Qltb_true in H. now rewrite H.
  - left. apply Qgtb_true in H. rewrite H. apply orb_true_r.
  - right. apply Qltb_true in H. now rewrite H.
  - right. apply Qgtb_true in H. rewrite H. apply orb_true_r.
Qed.

End Safeguards.

(** C1: when the filtered water temperature of a pass is below 3.0 or above
    50.0, or the filtered case temperature below 3.0 or above 55.0, the pass
    ends in [errmesg]: compressor, solenoid and fan pins are HIGH (off), and
    whatever is read afterwards the sketch stays halted with the same
    variables.  From a state of 1..5 the code shown is 1 or 2. *)
Theorem safety_violation_halts (i : sample) (g : globals) :
  out_of_bounds (read_temp (celsius1 i) (celsius2 i) g) ->
  exists err g',
    duty_pass i g = Halted err g' /\
    (1 <= state g <= 5 -> err = 1 \/ err = 2) /\
    actuators_off g' /\
    forall more, duty_loop more (Halted err g') = Halted err g'.
Proof.
  intro Hout.
  destruct (handler_of (state g)) as [h |] eqn:Hh.
  - destruct (handler_of_some _ _ Hh) as [Hs Hin].
    destruct (duty_pass_valid i g Hs) as (h' & g1 & Hin' & Eg1 & _ & ->).
    destruct (safeguarded_temps i g h' Hin') as [ET ET2].
    rewrite <- Eg1 in ET, ET2.
    assert (Hout1 : out_of_bounds g1).
    { unfold out_of_bounds in *. now rewrite ET, ET2. }
    apply out_of_bounds_test in Hout1.
    destruct (safeguards_cases g1) as [(E & A & B) | [(E & A) | (E & A & B)]].
    + destruct Hout1; congruence.
    + rewrite E. exists 1, (vars (errmesg 1 g1)).
      split; [reflexivity|]. split; [auto|].
      split; [apply errmesg_actuators_off|].
      intro more. apply duty_loop_halted.
    + rewrite E. exists 2, (vars (errmesg 2 g1)).
      split; [reflexivity|]. split; [auto|].
      split; [apply errmesg_actuators_off|].
      intro more. apply duty_loop_halted.
  - rewrite duty_pass_blocks, dispatch_handler.
    destruct (sensed_frame i g) as (_ & _ & _ & -> & _). rewrite Hh.
    exists 99, (vars (errmesg 99 (sensed i g))).
    split; [reflexivity|]. split.
    + intro Hs. apply handler_of_none in Hh. contradiction.
    + split; [apply errmesg_actuators_off|].
      intro more. apply duty_loop_halted.
Qed.

Lemma safety_violation_halts_witness :
  ((T (read_temp 70.0 20.0 (cooling_at 50.0 20.0)) == b32 50.1)%Q /\
   exists err g',
     duty_pass (mkSample 20050 70.0 20.0) (cooling_at 50.0 20.0)
       = Halted err g' /\
     (1 <= state (cooling_at 50.0 20.0) <= 5 -> err = 1 \/ err = 2) /\
     actuators_off g' /\
     forall more, duty_loop more (Halted err g') = Halted err g') /\
  ((T (read_temp (-17.0) 20.0 (idle_at 3.0 20.0)) == b32 2.9)%Q /\
   exists err g',
     duty_pass (mkSample 20050 (-17.0) 20.0) (idle_at 3.0 20.0)
       = Halted err g' /\
     (1 <= state (idle_at 3.0 20.0) <= 5 -> err = 1 \/ err = 2) /\
     actuators_off g' /\
     forall more, duty_loop more (Halted err g') = Halted err g').
Proof.
  split; (split; [vm_compute; reflexivity|]).
  - apply (safety_violation_halts
             (mkSample 20050 70.0 20.0) (cooling_at 50.0 20.0)).
    right. left. vm_compute. reflexivity.
  - apply (safety_violation_halts
             (mkSample 20050 (-17.0) 20.0) (idle_at 3.0 20.0)).
    left. vm_compute. reflexivity.
Defined.

(** ** Which pins are written *)

Section Pins.

Lemma relay_burst_3 (a b c : level) :
  relay_burst [(SolenoidPin, c); (CompressorPin, b); (FanPin, a)].
Proof.
  unfold relay_burst, driven. cbn. split; [|tauto].
  repeat constructor; tauto.
Qed.

Lemma relay_burst_app (w1 w2 : list (Z * level)) :
  relay_burst w1 -> relay_burst w2 -> relay_burst (w1 ++ w2).
Proof.
  unfold relay_burst, pins_written. rewrite map_app.
  intros (F1 & A1 & B1 & C1) (F2 & _).
  split; [apply Forall_app; split; assumption |].
  repeat split; apply in_or_app; left; assumption.
Qed.

Lemma driven_not_pump (w : list (Z * level)) :
  Forall driven (pins_written w) -> pump_writes w = [].
Proof.
  unfold pump_writes, pins_written.
  induction w as [| [p v] w IH]; cbn [map filter fst]; intro F;
    [reflexivity|].
  inversion F as [| ? ? Hp Hw]; subst.
  rewrite (IH Hw).
  destruct Hp as [-> | [-> | ->]]; reflexivity.
Qed.

(** The log after a pass: a burst of relay writes on top of the old one. *)
Lemma duty_pass_port (i : sample) (g : globals) :
  exists w, port (vars (duty_pass i g)) = w ++ port g /\ relay_burst w.
Proof.
  rewrite duty_pass_blocks, dispatch_handler.
  destruct (sensed_frame i g) as (_ & _ & _ & Hst & _ & _ & _ & Hp).
  rewrite Hst.
  destruct (handler_of (state g)) as [h |] eqn:Hh.
  - destruct (handler_of_some _ _ Hh) as [_ Hin].
    destruct (handler_port h (sensed i g) Hin) as (a & b & c & Hw).
    rewrite Hp in Hw. cbn [bind].
    set (g1 := change_state (fst (h (sensed i g)))).
    assert (H1 : port g1 = [(SolenoidPin, c); (CompressorPin, b);
                            (FanPin, a)] ++ port g).
    { unfold g1.
      destruct (change_state_frame (fst (h (sensed i g))))
        as (_ & _ & _ & -> & _).
      exact Hw. }
    clearbody g1.
    destruct (safeguards_cases g1) as [(E & _) | [(E & _) | (E & _)]];
      rewrite E.
    + cbn [bind vars].
      destruct (housekeeping_frame (ticked i g) g1) as (_ & _ & ->).
      eexists. split; [exact H1 | apply relay_burst_3].
    + destruct (errmesg_halts 1 g1) as (g' & -> & Hp' & _).
      cbn [bind vars]. rewrite Hp', H1.
      exists ([(SolenoidPin, HIGH); (CompressorPin, HIGH); (FanPin, HIGH)]
                ++ [(SolenoidPin, c); (CompressorPin, b); (FanPin, a)]).
      split; [reflexivity |].
      apply relay_burst_app; apply relay_burst_3.
    + destruct (errmesg_halts 2 g1) as (g' & -> & Hp' & _).
      cbn [bind vars]. rewrite Hp', H1.
      exists ([(SolenoidPin, HIGH); (CompressorPin, HIGH); (FanPin, HIGH)]
                ++ [(SolenoidPin, c); (CompressorPin, b); (FanPin, a)]).
      split; [reflexivity |].
      apply relay_burst_app; apply relay_burst_3.
  - destruct (errmesg_halts 99 (sensed i g)) as (g' & -> & Hp' & _).
    cbn [bind vars]. rewrite Hp', Hp.
    exists [(SolenoidPin, HIGH); (CompressorPin, HIGH); (FanPin, HIGH)].
    split; [reflexivity | apply relay_burst_3].
Qed.

Lemma pass_writes_burst (i : sample) (g : globals) :
  relay_burst (pass_writes i g).
Proof.
  unfold pass_writes. cbv zeta.
  destruct (duty_pass_port i g) as (w & -> & Hw).
  rewrite length_app, Nat.add_sub, firstn_app, Nat.sub_diag.
  cbn [firstn]. rewrite app_nil_r, firstn_all. exact Hw.
Qed.

Lemma duty_loop_pump (input : list sample) (o : outcome) :
  pump_writes (port (vars o)) = [(PumpPin, HIGH)] ->
  pump_writes (port (vars (duty_loop input o))) = [(PumpPin, HIGH)].
Proof.
  apply (duty_loop_vars
           (fun g => pump_writes (port g) = [(PumpPin, HIGH)])).
  intros i g Hg.
  destruct (duty_pass_port i g) as (w & -> & (F & _)).
  unfold pump_writes in *. rewrite filter_app.
  fold (pump_writes w). rewrite (driven_not_pump w F). exact Hg.
Qed.

End Pins.

(** C9, as stated, fails: no pass of the duty loop, from any variables and on
    any readings, writes the pump pin. *)
Lemma pump_not_written_by_duty_loop :
  ~ exists (i : sample) (g : globals),
      In PumpPin (pins_written (pass_writes i g)).
Proof.
  intros (i & g & Hin).
  destruct (pass_writes_burst i g) as (F & _).
  rewrite Forall_forall in F. specialize (F _ Hin).
  destruct F as [E | [E | E]]; discriminate E.
Qed.

(** C9, amended: the duty loop drives three actuators.  Every pass writes
    the solenoid, compressor and fan pins and no other pin; the pump pin is
    written exactly once in a whole run, HIGH, by [setup()]. *)
Theorem pump_written_only_by_setup
        (warm : nat -> Q * Q) (m1 m2 : Z) (input : list sample)
        (i : sample) (g : globals) :
  Forall driven (pins_written (pass_writes i g)) /\
  In SolenoidPin (pins_written (pass_writes i g)) /\
  In CompressorPin (pins_written (pass_writes i g)) /\
  In FanPin (pins_written (pass_writes i g)) /\
  ~ In PumpPin (pins_written (pass_writes i g)) /\
  pump_writes (port (setup power_on)) = [(PumpPin, HIGH)] /\
  pump_writes (port (vars (run warm m1 m2 input))) = [(PumpPin, HIGH)].
Proof.
  destruct (pass_writes_burst i g) as (F & A & B & C).
  repeat split; try assumption.
  - intro Hin. rewrite Forall_forall in F. specialize (F _ Hin).
    destruct F as [E | [E | E]]; discriminate E.
  - unfold run. apply duty_loop_pump, startup_pump.
Qed.

(** ** The second counter at the roll-over of [millis()] *)

Section SecondCounter.

(** What one pass of the second counter does to the clock variables. *)
Lemma second_counter_tick (now : Z) (g : globals) :
  let r := second_counter (set_thisTick now g) in
  if negb ((nextSecondTick g <? 1001) && (now >? 1001))
     && (now >? nextSecondTick g)
  then snd r = true /\ seconds (fst r) = ulong (seconds g + 1) /\
       nextSecondTick (fst r) = ulong (nextSecondTick g + SECOND)
  else snd r = false /\ seconds (fst r) = seconds g /\
       nextSecondTick (fst r) = nextSecondTick g.
Proof.
  unfold second_counter. cbn.
  destruct (negb ((nextSecondTick g <? 1001) && (now >? 1001)));
    cbn [andb]; [| repeat split; reflexivity].
  destruct (now >? nextSecondTick g); cbn; repeat split; reflexivity.
Qed.

(** Away from the roll-over the counter works: readings that pass one
    boundary each give one tick each. *)
Lemma count_seconds_on_time (k : nat) (g : globals) :
  1001 <= nextSecondTick g ->
  nextSecondTick g + SECOND * Z.of_nat k < 2 ^ 32 ->
  0 <= seconds g < 2 ^ 32 ->
  let r := count_seconds (on_time (nextSecondTick g) k) g in
  nextSecondTick (fst r) = nextSecondTick g + SECOND * Z.of_nat k /\
  seconds (fst r) = ulong (seconds g + Z.of_nat k) /\
  snd r = repeat true k.
Proof.
  unfold SECOND. revert g.
  induction k as [| k IH]; intros g Hlo Hhi Hs; cbv zeta.
  - cbn [on_time count_seconds fst snd repeat].
    rewrite Z.mul_0_r, !Z.add_0_r. repeat split; try reflexivity.
    unfold ulong. now rewrite Z.mod_small.
  - cbn [on_time count_seconds].
    pose proof (second_counter_tick (nextSecondTick g + 1) g) as Ht.
    cbv zeta in Ht.
    destruct (second_counter (set_thisTick (nextSecondTick g + 1) g))
      as [g1 tick].
    cbn [fst snd] in Ht.
    replace (nextSecondTick g <? 1001) with false in Ht
      by (symmetry; apply Z.ltb_ge; lia).
    replace (nextSecondTick g + 1 >? nextSecondTick g) with true in Ht
      by (symmetry; apply Z.gtb_lt; lia).
    cbn [andb negb] in Ht. destruct Ht as (Et & Es & En).
    unfold SECOND, ulong in En.
    rewrite Z.mod_small in En by lia.
    specialize (IH g1). rewrite En in IH. cbv zeta in IH.
    unfold SECOND in *.
    destruct (count_seconds (on_time (nextSecondTick g + 1000) k) g1)
      as [g2 ticks].
    cbn [fst snd] in *.
    destruct IH as (A & B & C); [lia | lia | |].
    { rewrite Es. apply Z.mod_pos_bound. lia. }
    rewrite A, B, C, Es, Et. repeat split; try lia.
    unfold ulong. rewrite Zplus_mod_idemp_l. f_equal. lia.
Qed.

(** While the readings stay at or below a boundary that is not below 1001,
    nothing is counted. *)
Lemma count_seconds_stalled (stamps : list Z) (g : globals) :
  1001 <= nextSecondTick g ->
  Forall (fun now => now <= nextSecondTick g) stamps ->
  let r := count_seconds stamps g in
  seconds (fst r) = seconds g /\
  nextSecondTick (fst r) = nextSecondTick g /\
  snd r = repeat false (length stamps).
Proof.
  intro Hlo. revert g Hlo.
  induction stamps as [| now rest IH]; intros g Hlo Hall; cbv zeta.
  - repeat split; reflexivity.
  - inversion Hall as [| ? ? Hnow Hrest]; subst.
    cbn [count_seconds length repeat].
    pose proof (second_counter_tick now g) as Ht. cbv zeta in Ht.
    destruct (second_counter (set_thisTick now g)) as [g1 tick].
    cbn [fst snd] in Ht.
    replace (now >? nextSecondTick g) with false in Ht
      by (symmetry; rewrite Z.gtb_ltb; apply Z.ltb_ge; lia).
    rewrite andb_false_r in Ht. destruct Ht as (Et & Es & En).
    specialize (IH g1). rewrite En in IH. cbv zeta in IH.
    destruct (count_seconds rest g1) as [g2 ticks].
    cbn [fst snd] in *.
    destruct (IH Hlo Hrest) as (A & B & C).
    rewrite A, B, C, Es, Et. repeat split; reflexivity.
Qed.

(** The boundary of [clock_before_wrap] is the one reached from a
    hand-over at [millis() = 16276] by 4294950 regular seconds. *)
Lemma boundary_before_wrap_reachable (g : globals) :
  0 <= seconds g < 2 ^ 32 ->
  let g0 := hand_over 16276 16276 g in
  let r := count_seconds (on_time 17276 (Z.to_nat 4294950)) g0 in
  nextSecondTick (fst r) = nextSecondTick clock_before_wrap /\
  snd r = repeat true (Z.to_nat 4294950).
Proof.
  intro Hs. cbv zeta.
  pose proof (count_seconds_on_time (Z.to_nat 4294950)
                (hand_over 16276 16276 g)) as H.
  cbv zeta in H.
  change (nextSecondTick (hand_over 16276 16276 g)) with 17276 in H.
  change (seconds (hand_over 16276 16276 g)) with (seconds g) in H.
  rewrite Z2Nat.id in H by lia. unfold SECOND in H.
  destruct H as (A & _ & C); [lia | lia | exact Hs |].
  split; [exact A | exact C].
Qed.

(** The roll-over guard itself can stop the counter: once the boundary has
    wrapped to 998 and a reading jumps from 971 to 1025, the guard
    [nextSecondTick < 1001 && thisTick > 1001] holds on every later pass.
    Only the first of the 101 passes ticks. *)
Lemma second_counter_stalls_behind_guard :
  nth 18 stamps_past_guard 0 = 971 /\
  nth 19 stamps_past_guard 0 = 1025 /\
  snd (count_seconds stamps_past_guard clock_at_wrap)
    = true :: repeat false 100 /\
  seconds (fst (count_seconds stamps_past_guard clock_at_wrap))
    = seconds clock_at_wrap + 1 /\
  nextSecondTick (fst (count_seconds stamps_past_guard clock_at_wrap)) = 998.
Proof.
  repeat split; vm_compute; reflexivity.
Qed.

End SecondCounter.

(** C2, on the code: with the next boundary 20 ms before the roll-over of
    [millis()] and passes 50 ms apart, the reading wraps before it has passed
    the boundary.  Over the following five seconds (101 passes, readings
    from 4294967250 through the roll-over to 4954) no pass has [tick] and
    [seconds] does not move, both for the second counter alone and for the
    whole duty loop in Idle. *)
Theorem second_counter_stalls_at_wrap :
  hd 0 stamps_across_wrap = 4294967250 /\
  nth 1 stamps_across_wrap 0 = 4 /\
  last stamps_across_wrap 0 = ulong (4294967250 + 5000) /\
  seconds (fst (count_seconds stamps_across_wrap clock_before_wrap))
    = seconds clock_before_wrap /\
  snd (count_seconds stamps_across_wrap clock_before_wrap)
    = repeat false 101 /\
  (exists g', duty_loop (map (fun now => mkSample now 20.0 20.0)
                             stamps_across_wrap)
                        (Running clock_before_wrap) = Running g' /\
     seconds g' = seconds clock_before_wrap /\
     nextSecondTick g' = nextSecondTick clock_before_wrap).
Proof.
  repeat split; try (vm_compute; reflexivity).
  eexists. split; [vm_compute; reflexivity |]. split; reflexivity.
Qed.
